(** * Arrow logging facade: [cpp/src/arrow/util/logging.cc]

    A shallow embedding of the logging facade (the direct console sink
    [CerrLog], the severity mapping for glog, the process-wide logging
    state and the [ArrowLog] record) together with the properties that
    its specification states about it.

    Conventions.
    - C++ [int] values (severities, the threshold, line numbers) are
      integers in [Z]; the code only compares them and prints them, it
      never does arithmetic on them, so no wrap-around arises.
    - [std::string] and C strings are [string]; [c_str] cuts a
      [std::string] at its first NUL where the code hands it to a
      [const char*] interface.
    - Side effects are threaded through a small monad [M] over a [World]
      holding the static members of [ArrowLog] and the ordered trace of
      everything the process did that is visible from outside. *)

From Stdlib Require Import ZArith String Ascii List Bool Lia DecimalString.
Import ListNotations.

Local Open Scope Z_scope.
Local Open Scope string_scope.

(** ** Constants of the missing header *)

(** [arrow/util/logging.h] is not part of the sources at hand: the
    severity macros [ARROW_DEBUG] ... [ARROW_FATAL] it defines are taken
    as parameters.  The only fact the code relies on is the one the
    specification states: they are five integers in strictly increasing
    order of criticality (in particular pairwise distinct, as the [case]
    labels of [GetMappedSeverity] require). *)
Class SeverityLevels : Set := {
  ARROW_DEBUG : Z;
  ARROW_INFO : Z;
  ARROW_WARNING : Z;
  ARROW_ERROR : Z;
  ARROW_FATAL : Z;
  levels_ordered :
    ARROW_DEBUG < ARROW_INFO /\ ARROW_INFO < ARROW_WARNING /\
    ARROW_WARNING < ARROW_ERROR /\ ARROW_ERROR < ARROW_FATAL
}.

(** A sample assignment of the five levels, for running the model on
    concrete inputs. *)
Definition sample_levels : SeverityLevels.
Proof.
  refine {| ARROW_DEBUG := -1; ARROW_INFO := 0; ARROW_WARNING := 1;
            ARROW_ERROR := 2; ARROW_FATAL := 3 |}.
  lia.
Defined.

(** ** Build configuration *)

(** The preprocessor symbols the translation unit branches on, and the
    value of [__FILE__] at the one place the file logs about itself. *)
Record Build : Set := mkBuild {
  ARROW_USE_GLOG : bool;      (* #ifdef ARROW_USE_GLOG *)
  have_execinfo : bool;       (* defined(_EXECINFO_H) || !defined(_WIN32) *)
  this_file : string          (* __FILE__ inside logging.cc *)
}.

Definition direct_build : Build := mkBuild false true "logging.cc".
Definition glog_build : Build := mkBuild true true "logging.cc".

(** ** Strings *)

Definition newline : string := String (ascii_of_nat 10) EmptyString.
Definition slash : ascii := ascii_of_nat 47.
Definition NUL : ascii := ascii_of_nat 0.

(** [s.c_str()] read as a C string: the characters before the first NUL. *)
Fixpoint c_str (s : string) : string :=
  match s with
  | EmptyString => EmptyString
  | String a r => if Ascii.eqb a NUL then EmptyString else String a (c_str r)
  end.

(** [s.rfind(c)]: the position of the last [c], [None] standing for
    [npos]. *)
Fixpoint rfind (c : ascii) (s : string) : option nat :=
  match s with
  | EmptyString => None
  | String a r =>
      match rfind c r with
      | Some p => Some (S p)
      | None => if Ascii.eqb a c then Some O else None
      end
  end.

(** [s.substr(pos)]: the suffix from [pos]; [std::out_of_range] ([None])
    when [pos > s.length()]. *)
Fixpoint substr (pos : nat) (s : string) : option string :=
  match pos, s with
  | O, _ => Some s
  | S p, String _ r => substr p r
  | S _, EmptyString => None
  end.

(** [s[s.length() - 1]] of a non-empty string; [None] on the empty one,
    where the code does not evaluate it. *)
Fixpoint back (s : string) : option ascii :=
  match s with
  | EmptyString => None
  | String a EmptyString => Some a
  | String _ r => back r
  end.

(** What is streamed with [<<] in this file: C strings and [int]s. *)
Inductive value : Set :=
| VStr (s : string)
| VInt (n : Z).

(** [os << v] with the default format flags: a string is copied, an
    [int] is written in decimal with a leading [-] when negative. *)
Definition render (v : value) : string :=
  match v with
  | VStr s => s
  | VInt n => NilZero.string_of_int (Z.to_int n)
  end.

(** ** The outside world *)

Definition STDOUT_FILENO : Z := 1.
Definition STDERR_FILENO : Z := 2.

Module google.
(** glog is an external collaborator.  Its severities are an
    enumeration; its entry points are recorded as calls, and a
    [LogMessage] is the text this facade streamed into it. *)
Inductive LogSeverity : Set := GLOG_INFO | GLOG_WARNING | GLOG_ERROR | GLOG_FATAL.

Inductive call : Set :=
| InitGoogleLogging (argv0 : string)
| SetStderrLogging (min_severity : LogSeverity)
| SetLogFilenameExtension (ext : string)
| SetLogDestination (severity : LogSeverity) (base_filename : string)
| ShutdownGoogleLogging
| InstallFailureSignalHandler
| Flush (file : string) (line : Z) (severity : LogSeverity) (text : string).

Record LogMessage : Set := mkLogMessage {
  file_ : string;
  line_ : Z;
  msg_severity_ : LogSeverity;
  text_ : string
}.

Definition LogSeverity_eqb (a b : LogSeverity) : bool :=
  match a, b with
  | GLOG_INFO, GLOG_INFO | GLOG_WARNING, GLOG_WARNING
  | GLOG_ERROR, GLOG_ERROR | GLOG_FATAL, GLOG_FATAL => true
  | _, _ => false
  end.
End google.

(** Everything observable, in the order it happens. *)
Inductive event : Set :=
| Write (fd : Z) (s : string)          (* bytes written to a descriptor *)
| BacktraceSymbolsFd (fd : Z)          (* backtrace_symbols_fd(buffer, calls, fd) *)
| Abort                                (* std::abort() *)
| Glog (c : google.call).              (* a call into glog *)

(** The static members of [ArrowLog] and the trace. *)
Record World : Set := mkWorld {
  severity_threshold_ : Z;
  app_name_ : option string;           (* unique_ptr<char[]>: None is the null pointer *)
  working_dir_ : string;
  trace : list event
}.

Definition emit_to (e : event) (w : World) : World :=
  mkWorld (severity_threshold_ w) (app_name_ w) (working_dir_ w) (trace w ++ [e]).

(** The static initialisers of lines 77-79. *)
Definition initial_world `{SeverityLevels} : World :=
  mkWorld ARROW_INFO None "" [].

(** The text of the [Write] events on one descriptor, concatenated.  The
    frames of a backtrace dump are an event of their own and not part
    of it. *)
Fixpoint written_to (fd : Z) (t : list event) : string :=
  match t with
  | [] => ""
  | Write fd' s :: r => if Z.eqb fd' fd then s ++ written_to fd r else written_to fd r
  | _ :: r => written_to fd r
  end.

Definition stderr_text (w : World) : string := written_to STDERR_FILENO (trace w).
Definition stdout_text (w : World) : string := written_to STDOUT_FILENO (trace w).

(** ** The effect monad *)

Inductive fault : Set :=
| NullDereference        (* member access through a null pointer *)
| NullCString            (* a null [const char*] streamed with [<<] *)
| OutOfRange.            (* std::out_of_range *)

Inductive Outcome (A : Type) : Type :=
| Returned (a : A) (w : World)     (* the call returned [a] *)
| Terminated (w : World)           (* the process ended inside the call *)
| Faulted (f : fault) (w : World)  (* the call left defined behaviour *)
| OutOfFuel.                       (* the model's recursion bound was hit *)
Arguments Returned {A} a w.
Arguments Terminated {A} w.
Arguments Faulted {A} f w.
Arguments OutOfFuel {A}.

Definition M (A : Type) : Type := World -> Outcome A.

Definition ret {A} (a : A) : M A := fun w => Returned a w.

Definition bind {A B} (m : M A) (k : A -> M B) : M B :=
  fun w =>
    match m w with
    | Returned a w' => k a w'
    | Terminated w' => Terminated w'
    | Faulted f w' => Faulted f w'
    | OutOfFuel => OutOfFuel
    end.

Declare Scope logm_scope.
Delimit Scope logm_scope with logm.
Notation "x <- m ;; k" := (bind m (fun x => k))
  (at level 61, m at next level, right associativity) : logm_scope.
Notation "m ;; k" := (bind m (fun _ => k))
  (at level 61, right associativity) : logm_scope.
Local Open Scope logm_scope.

Definition emit (e : event) : M unit := fun w => Returned tt (emit_to e w).
Definition terminate {A} : M A := fun w => Terminated w.
Definition fail {A} (f : fault) : M A := fun w => Faulted f w.
Definition read {A} (f : World -> A) : M A := fun w => Returned (f w) w.

Definition set_severity_threshold_ (t : Z) : M unit :=
  fun w => Returned tt (mkWorld t (app_name_ w) (working_dir_ w) (trace w)).
Definition set_app_name_ (n : option string) : M unit :=
  fun w => Returned tt (mkWorld (severity_threshold_ w) n (working_dir_ w) (trace w)).
Definition set_working_dir_ (d : string) : M unit :=
  fun w => Returned tt (mkWorld (severity_threshold_ w) (app_name_ w) d (trace w)).

(** [std::cerr << v], [printf] and friends. *)
Definition cerr_put (v : value) : M unit := emit (Write STDERR_FILENO (render v)).
Definition printf (s : string) : M unit := emit (Write STDOUT_FILENO s).

(** ** glog's [LogMessage], as this file uses it *)

Module LogMessage.
Import google.

(** [m.stream() << s]: glog buffers the text in the message. *)
Definition put (m : LogMessage) (s : string) : LogMessage :=
  mkLogMessage (file_ m) (line_ m) (msg_severity_ m) (text_ m ++ s).

(** [delete m]: glog sends the buffered line to its sinks and, for a
    message of its fatal level, ends the process itself.  This facade
    leaves both to glog. *)
Definition dtor (m : LogMessage) : M unit :=
  emit (Glog (Flush (file_ m) (line_ m) (msg_severity_ m) (text_ m))) ;;
  if LogSeverity_eqb (msg_severity_ m) GLOG_FATAL then terminate else ret tt.
End LogMessage.

(** ** The direct console sink: [class CerrLog] (lines 36-75) *)

Module CerrLog.
Section WithLevels.
Context `{SeverityLevels}.
Variable bld : Build.

Record t : Set := mk {
  severity_ : Z;
  has_logged_ : bool
}.

(** [explicit CerrLog(int severity)], line 38. *)
Definition ctor (severity : Z) : t := mk severity false.

(** [PrintBackTrace], lines 68-74: the frames are written to
    descriptor 1; nothing happens where [execinfo] is not there. *)
Definition PrintBackTrace : M unit :=
  if have_execinfo bld then emit (BacktraceSymbolsFd 1) else ret tt.

(** [~CerrLog], lines 40-48. *)
Definition dtor (c : t) : M unit :=
  (if has_logged_ c then emit (Write STDERR_FILENO newline) else ret tt) ;;
  if Z.eqb (severity_ c) ARROW_FATAL then
    PrintBackTrace ;;
    emit Abort ;;
    terminate
  else ret tt.

(** [Stream], lines 50-53: marks the record and hands out [std::cerr]
    itself; whatever the caller then writes to it is not filtered. *)
Definition Stream (c : t) : t := mk (severity_ c) true.

(** [operator<<], lines 55-62. *)
Definition shl (c : t) (v : value) : M t :=
  if negb (Z.eqb (severity_ c) ARROW_DEBUG) then
    cerr_put v ;;
    ret (mk (severity_ c) true)
  else ret c.

(** [c << v1 << v2 << ...]. *)
Fixpoint shl_all (c : t) (vs : list value) : M t :=
  match vs with
  | [] => ret c
  | v :: vs' => c' <- shl c v ;; shl_all c' vs'
  end.
End WithLevels.
End CerrLog.

(** ** The facade: [class ArrowLog] (lines 77-194) *)

(** [typedef ... LoggingProvider], lines 105-110: glog's message in a
    glog build, [CerrLog] otherwise.  [logging_provider_] is a [void*]
    that is null ([None]) or owns one such object; the constructor of a
    build only ever stores that build's kind, which is the kind the
    [reinterpret_cast]s of that build read back. *)
Inductive LoggingProvider : Set :=
| OfCerrLog (c : CerrLog.t)
| OfLogMessage (m : google.LogMessage).

(** The [std::ostream&] that [Stream] returns. *)
Inductive ostream : Set :=
| std_cerr
| LogMessage_stream.

Module ArrowLog.
Section WithLevels.
Context `{SeverityLevels}.
Variable bld : Build.

Record t : Set := mk {
  is_enabled_ : bool;
  logging_provider_ : option LoggingProvider
}.

(** The constructor, lines 160-176, over the severity mapping it
    calls (the two are mutually recursive through [ARROW_LOG]). *)
Definition ctor_with (GetMappedSeverity : Z -> M google.LogSeverity)
    (file_name : string) (line_number severity : Z) : M t :=
  threshold <- read severity_threshold_ ;;
  let is_enabled := Z.geb severity threshold in
  if ARROW_USE_GLOG bld then
    if is_enabled then
      mapped <- GetMappedSeverity severity ;;
      let logging_provider := google.mkLogMessage file_name line_number mapped "" in
      let logging_provider := LogMessage.put logging_provider "(" in
      name <- read app_name_ ;;
      match name with
      | None => fail NullCString
      | Some n =>
          let logging_provider := LogMessage.put logging_provider n in
          let logging_provider := LogMessage.put logging_provider "): " in
          ret (mk is_enabled (Some (OfLogMessage logging_provider)))
      end
    else ret (mk is_enabled None)
  else
    c <- CerrLog.shl_all (CerrLog.ctor severity)
           [VStr file_name; VStr ":"; VInt line_number; VStr ": "] ;;
    ret (mk is_enabled (Some (OfCerrLog c))).

(** [Stream], lines 178-186.  Both branches dereference
    [logging_provider_] without a test. *)
Definition Stream (r : t) : M (t * ostream) :=
  match logging_provider_ r with
  | None => fail NullDereference
  | Some (OfLogMessage m) => ret (r, LogMessage_stream)
  | Some (OfCerrLog c) =>
      ret (mk (is_enabled_ r) (Some (OfCerrLog (CerrLog.Stream c))), std_cerr)
  end.

(** Writing one value to a stream obtained from [Stream]. *)
Definition ostream_put (r : t) (os : ostream) (v : value) : M t :=
  match os with
  | std_cerr => cerr_put v ;; ret r
  | LogMessage_stream =>
      match logging_provider_ r with
      | Some (OfLogMessage m) =>
          ret (mk (is_enabled_ r) (Some (OfLogMessage (LogMessage.put m (render v)))))
      | _ => fail NullDereference
      end
  end.

(** [IsEnabled], line 188: a [const] member. *)
Definition IsEnabled (r : t) : M bool := ret (is_enabled_ r).

(** [~ArrowLog], lines 190-194. *)
Definition dtor (r : t) : M unit :=
  match logging_provider_ r with
  | None => ret tt
  | Some (OfCerrLog c) => CerrLog.dtor bld c
  | Some (OfLogMessage m) => LogMessage.dtor m
  end.

(** Streaming a value into the record's provider, as the constructor
    does: [*provider << v] with the sink's own [operator<<] (line 174),
    or [provider->stream() << v] on glog's message (line 168). *)
Definition sink_shl (r : t) (v : value) : M t :=
  match logging_provider_ r with
  | Some (OfCerrLog c) =>
      c' <- CerrLog.shl c v ;;
      ret (mk (is_enabled_ r) (Some (OfCerrLog c')))
  | Some (OfLogMessage m) =>
      ret (mk (is_enabled_ r) (Some (OfLogMessage (LogMessage.put m (render v)))))
  | None => fail NullDereference
  end.

Fixpoint sink_shl_all (r : t) (vs : list value) : M t :=
  match vs with
  | [] => ret r
  | v :: vs' => r' <- sink_shl r v ;; sink_shl_all r' vs'
  end.

(** Modelled from the spec: the streaming append of a log record,
    [ArrowLog::operator<<], is declared in [arrow/util/logging.h],
    which is missing.  The specification gives it as: a disabled
    record accepts appends as no-ops; an enabled one passes the value
    to its sink (the direct sink's append, or glog's stream). *)
Definition shl (r : t) (v : value) : M t :=
  if is_enabled_ r then sink_shl r v else ret r.

Fixpoint shl_all (r : t) (vs : list value) : M t :=
  match vs with
  | [] => ret r
  | v :: vs' => r' <- shl r v ;; shl_all r' vs'
  end.

(** Modelled from the spec: the call-site macro [ARROW_LOG(level) <<
    v1 << ...;] is defined in the missing header.  The specification
    gives it as the construct-stream-destroy idiom: a temporary record
    is constructed at the call site, the values are appended, and the
    record is destroyed at the end of the statement. *)
Definition ARROW_LOG_with (ctor : string -> Z -> Z -> M t)
    (file : string) (line severity : Z) (vs : list value) : M unit :=
  r <- ctor file line severity ;;
  r' <- shl_all r vs ;;
  dtor r'.

(** [GetMappedSeverity], lines 84-101; it exists, and is called, in
    glog builds only.  The [default:] branch logs through the facade,
    whose constructor calls back into this function with
    [ARROW_FATAL]; [fuel] bounds that recursion. *)
Fixpoint GetMappedSeverity_fuel (fuel : nat) (severity : Z) : M google.LogSeverity :=
  match fuel with
  | O => fun _ => OutOfFuel
  | S fuel' =>
      if Z.eqb severity ARROW_DEBUG then ret google.GLOG_INFO
      else if Z.eqb severity ARROW_INFO then ret google.GLOG_INFO
      else if Z.eqb severity ARROW_WARNING then ret google.GLOG_WARNING
      else if Z.eqb severity ARROW_ERROR then ret google.GLOG_ERROR
      else if Z.eqb severity ARROW_FATAL then ret google.GLOG_FATAL
      else
        ARROW_LOG_with (ctor_with (GetMappedSeverity_fuel fuel'))
          (this_file bld) 97 ARROW_FATAL
          [VStr "Unsupported logging level: "; VInt severity] ;;
        (* This return won't be hit but compiler needs it. *)
        ret google.GLOG_FATAL
  end.

(** Two levels are all the recursion there is (see
    [GetMappedSeverity_fuel_enough]). *)
Definition GetMappedSeverity : Z -> M google.LogSeverity :=
  GetMappedSeverity_fuel 2.

Definition ctor : string -> Z -> Z -> M t := ctor_with GetMappedSeverity.

Definition ARROW_LOG : string -> Z -> Z -> list value -> M unit :=
  ARROW_LOG_with ctor.

(** [app_name_without_path], lines 127-136. *)
Definition app_name_without_path (app_name : string) : M string :=
  if (String.length app_name =? 0)%nat then ret "DefaultApp"
  else
    match rfind slash app_name with
    | Some pos =>
        if (pos + 1 <? String.length app_name)%nat then
          match substr (pos + 1) app_name with
          | Some s => ret s
          | None => fail OutOfRange
          end
        else ret app_name
    | None => ret app_name
    end.

(** [StartArrowLog], lines 112-146.  [getcwd] is what the call
    [getcwd(cwd, sizeof(cwd))] yields: the directory, or [None] for
    [NULL]. *)
Definition StartArrowLog (app_name : string) (severity_threshold : Z)
    (log_dir : string) (getcwd : option string) : M unit :=
  (if ARROW_USE_GLOG bld then
     set_severity_threshold_ severity_threshold ;;
     set_app_name_ (Some (c_str app_name)) ;;
     threshold <- read severity_threshold_ ;;
     mapped_severity_threshold <- GetMappedSeverity threshold ;;
     emit (Glog (google.InitGoogleLogging (c_str app_name))) ;;
     emit (Glog (google.SetStderrLogging mapped_severity_threshold)) ;;
     if negb (String.length log_dir =? 0)%nat then
       let dir_ends_with_slash :=
         match back log_dir with
         | Some c => if negb (Ascii.eqb c slash) then log_dir ++ "/" else log_dir
         | None => log_dir
         end in
       name <- app_name_without_path app_name ;;
       emit (Glog (google.SetLogFilenameExtension (c_str name))) ;;
       emit (Glog (google.SetLogDestination mapped_severity_threshold (c_str log_dir)))
     else ret tt
   else ret tt) ;;
  match getcwd with
  | Some cwd =>
      printf ("Current working dir: " ++ cwd ++ newline) ;;
      set_working_dir_ cwd
  | None => ret tt
  end.

(** [ShutDownArrowLog], lines 148-152. *)
Definition ShutDownArrowLog : M unit :=
  if ARROW_USE_GLOG bld then emit (Glog google.ShutdownGoogleLogging) else ret tt.

(** [InstallFailureSignalHandler], lines 154-158. *)
Definition InstallFailureSignalHandler : M unit :=
  if ARROW_USE_GLOG bld then emit (Glog google.InstallFailureSignalHandler) else ret tt.
End WithLevels.
End ArrowLog.


(** * Notions for stating the properties *)

Section Notions.
Context `{SeverityLevels}.

(** [w] after the events [es]. *)
Definition add_events (es : list event) (w : World) : World :=
  mkWorld (severity_threshold_ w) (app_name_ w) (working_dir_ w) (trace w ++ es).

(** Did the process end inside the call? *)
Definition terminated {A} (o : Outcome A) : bool :=
  match o with
  | Terminated _ => true
  | _ => false
  end.

(** The enabled flag of the record a constructor call returned. *)
Definition flag_of (o : Outcome ArrowLog.t) : option bool :=
  match o with
  | Returned r _ => Some (ArrowLog.is_enabled_ r)
  | _ => None
  end.

(** The world a call left behind, however it ended. *)
Definition world_of {A} (o : Outcome A) : option World :=
  match o with
  | Returned _ w | Terminated w | Faulted _ w => Some w
  | OutOfFuel => None
  end.

(** A console write that goes to descriptor [fd]; other events pass. *)
Definition writes_only_to (fd : Z) (e : event) : Prop :=
  match e with
  | Write fd' _ => fd' = fd
  | _ => True
  end.

(** The events of [c << v1 << ... << vn] on a sink that prints. *)
Definition puts (vs : list value) : list event :=
  map (fun v => Write STDERR_FILENO (render v)) vs.

(** What [~CerrLog] does, spelled out. *)
Definition line_end (c : CerrLog.t) : list event :=
  if CerrLog.has_logged_ c then [Write STDERR_FILENO newline] else [].

(** What [PrintBackTrace] does. *)
Definition backtrace_dump (bld : Build) : list event :=
  if have_execinfo bld then [BacktraceSymbolsFd 1] else [].

(** The prefix the direct build streams at construction, line 174. *)
Definition location (file_name : string) (line_number : Z) : list value :=
  [VStr file_name; VStr ":"; VInt line_number; VStr ": "].

(** The line glog receives from the [default:] branch of
    [GetMappedSeverity]. *)
Definition unsupported_level_line (src app : string) (severity : Z) : event :=
  Glog (google.Flush src 97 google.GLOG_FATAL
          (((("(" ++ app) ++ "): ") ++ "Unsupported logging level: ")
             ++ render (VInt severity))).

(** The [switch] of [GetMappedSeverity] on the five levels. *)
Definition known_level (severity : Z) : option google.LogSeverity :=
  if Z.eqb severity ARROW_DEBUG then Some google.GLOG_INFO
  else if Z.eqb severity ARROW_INFO then Some google.GLOG_INFO
  else if Z.eqb severity ARROW_WARNING then Some google.GLOG_WARNING
  else if Z.eqb severity ARROW_ERROR then Some google.GLOG_ERROR
  else if Z.eqb severity ARROW_FATAL then Some google.GLOG_FATAL
  else None.

(** The tail of [StartArrowLog], lines 141-145. *)
Definition cwd_recorded (getcwd : option string) (w : World) : World :=
  match getcwd with
  | Some cwd =>
      mkWorld (severity_threshold_ w) (app_name_ w) cwd
        (trace w ++ [Write STDOUT_FILENO ("Current working dir: " ++ cwd ++ newline)])
  | None => w
  end.

(** The statics after lines 115-117. *)
Definition threshold_recorded (app : string) (T : Z) (w : World) : World :=
  mkWorld T (Some (c_str app)) (working_dir_ w) (trace w).

(** The calls into glog of lines 119-138. *)
Definition glog_setup (app : string) (g : google.LogSeverity) (dir tag : string)
  : list event :=
  [Glog (google.InitGoogleLogging (c_str app)); Glog (google.SetStderrLogging g)] ++
  (if (String.length dir =? 0)%nat then []
   else [Glog (google.SetLogFilenameExtension (c_str tag));
         Glog (google.SetLogDestination g (c_str dir))]).

(** [r.Stream() << v1 << ... << vn]. *)
Fixpoint ostream_put_all (r : ArrowLog.t) (os : ostream) (vs : list value)
  : M ArrowLog.t :=
  match vs with
  | [] => ret r
  | v :: vs' => r' <- ArrowLog.ostream_put r os v ;; ostream_put_all r' os vs'
  end.

(** [Stream] first, then the writes to what it returned. *)
Definition via_Stream (r : ArrowLog.t) (vs : list value) : M ArrowLog.t :=
  p <- ArrowLog.Stream r ;; ostream_put_all (fst p) (snd p) vs.

(** What a call site does with a record between its construction and
    its destruction: it streams a value into the sink, or it asks for
    the stream and writes to that. *)
Inductive use : Set :=
| Shl (v : value)
| ViaStream (vs : list value).

Definition apply_use (r : ArrowLog.t) (u : use) : M ArrowLog.t :=
  match u with
  | Shl v => ArrowLog.sink_shl r v
  | ViaStream vs => via_Stream r vs
  end.

Fixpoint apply_uses (r : ArrowLog.t) (us : list use) : M ArrowLog.t :=
  match us with
  | [] => ret r
  | u :: us' => r' <- apply_use r u ;; apply_uses r' us'
  end.

(** A record as the direct build's constructor makes them. *)
Definition direct_record (en : bool) (c : CerrLog.t) : ArrowLog.t :=
  ArrowLog.mk en (Some (OfCerrLog c)).

(** A write to standard error, and nothing else. *)
Definition is_stderr_write (e : event) : Prop :=
  exists s, e = Write STDERR_FILENO s.

(** Which glog calls configure file output. *)
Definition is_file_output (e : event) : bool :=
  match e with
  | Glog (google.SetLogFilenameExtension _) | Glog (google.SetLogDestination _ _) => true
  | _ => false
  end.

(** The values a sequence of uses hands to the record, in order. *)
Definition content_of (us : list use) : list value :=
  flat_map (fun u => match u with Shl v => [v] | ViaStream vs => vs end) us.

(** Of those, the values written through [Stream]. *)
Definition streamed_of (us : list use) : list value :=
  flat_map (fun u => match u with Shl _ => [] | ViaStream vs => vs end) us.

(** Was [Stream] asked for at all? *)
Definition asked_for_stream (us : list use) : bool :=
  existsb (fun u => match u with Shl _ => false | ViaStream _ => true end) us.

(** The text of values streamed one after the other. *)
Definition text_of (vs : list value) : string :=
  fold_right (fun v s => render v ++ s) "" vs.

(** A record as the glog build's constructor makes them when enabled. *)
Definition glog_record (m : google.LogMessage) : ArrowLog.t :=
  ArrowLog.mk true (Some (OfLogMessage m)).

(** A call into glog, and nothing else. *)
Definition is_glog_call (e : event) : Prop :=
  exists c, e = Glog c.

(** Anything but a call into glog. *)
Definition not_glog_call (e : event) : Prop :=
  match e with
  | Glog _ => False
  | _ => True
  end.
End Notions.

(** * Properties *)

(** ** Worlds and traces *)

Lemma add_events_nil w : add_events [] w = w.
Proof. destruct w; unfold add_events; simpl; now rewrite app_nil_r. Qed.

Lemma add_events_add_events es1 es2 w :
  add_events es2 (add_events es1 w) = add_events (es1 ++ es2) w.
Proof. unfold add_events; simpl; now rewrite app_assoc. Qed.

Lemma emit_to_add_events e w : emit_to e w = add_events [e] w.
Proof. reflexivity. Qed.

Lemma written_to_app fd t1 t2 :
  written_to fd (t1 ++ t2) = written_to fd t1 ++ written_to fd t2.
Proof.
  induction t1 as [|e t1 IH]; simpl; [reflexivity|].
  destruct e as [fd' s| | |]; auto.
  destruct (Z.eqb fd' fd); auto.
  rewrite IH. clear IH. induction s; simpl; congruence.
Qed.

(** Unfolds the monad's primitives. *)
Ltac run :=
  cbv [bind ret emit terminate fail read cerr_put printf
       set_severity_threshold_ set_app_name_ set_working_dir_] in *.

Section Sink.
Context `{SeverityLevels}.

Lemma CerrLog_shl_eq c v w :
  CerrLog.shl c v w =
    if Z.eqb (CerrLog.severity_ c) ARROW_DEBUG then Returned c w
    else Returned (CerrLog.mk (CerrLog.severity_ c) true) (add_events (puts [v]) w).
Proof.
  unfold CerrLog.shl. destruct (Z.eqb _ _); reflexivity.
Qed.

Lemma CerrLog_shl_all_eq vs : forall c w,
  CerrLog.shl_all c vs w =
    if Z.eqb (CerrLog.severity_ c) ARROW_DEBUG then Returned c w
    else Returned
           (CerrLog.mk (CerrLog.severity_ c)
              (match vs with [] => CerrLog.has_logged_ c | _ => true end))
           (add_events (puts vs) w).
Proof.
  induction vs as [|v vs IH]; intros c w; simpl.
  - destruct c as [s h]; simpl. rewrite add_events_nil.
    now destruct (Z.eqb s ARROW_DEBUG).
  - unfold bind. rewrite CerrLog_shl_eq.
    destruct (Z.eqb (CerrLog.severity_ c) ARROW_DEBUG) eqn:E.
    + rewrite IH, E. reflexivity.
    + rewrite IH. simpl. rewrite E, add_events_add_events.
      destruct vs; reflexivity.
Qed.

Lemma CerrLog_dtor_eq bld c w :
  CerrLog.dtor bld c w =
    if Z.eqb (CerrLog.severity_ c) ARROW_FATAL
    then Terminated (add_events (line_end c ++ backtrace_dump bld ++ [Abort]) w)
    else Returned tt (add_events (line_end c) w).
Proof.
  unfold CerrLog.dtor, CerrLog.PrintBackTrace, line_end, backtrace_dump.
  destruct c as [s h]; simpl.
  destruct h, (Z.eqb s ARROW_FATAL), (have_execinfo bld); run; simpl;
    rewrite ?emit_to_add_events, ?add_events_add_events, ?add_events_nil;
    reflexivity.
Qed.
End Sink.

Section Facade.
Context `{SeverityLevels}.

Lemma ctor_direct_eq bt src f l s w :
  ArrowLog.ctor (mkBuild false bt src) f l s w =
    if Z.eqb s ARROW_DEBUG
    then Returned
           (ArrowLog.mk (Z.geb s (severity_threshold_ w))
              (Some (OfCerrLog (CerrLog.mk s false)))) w
    else Returned
           (ArrowLog.mk (Z.geb s (severity_threshold_ w))
              (Some (OfCerrLog (CerrLog.mk s true))))
           (add_events (puts (location f l)) w).
Proof.
  unfold ArrowLog.ctor, ArrowLog.ctor_with. simpl ARROW_USE_GLOG. cbv iota.
  unfold bind at 1, read. unfold bind at 1.
  rewrite CerrLog_shl_all_eq. simpl CerrLog.severity_.
  destruct (Z.eqb s ARROW_DEBUG); reflexivity.
Qed.

Lemma known_level_FATAL : known_level ARROW_FATAL = Some google.GLOG_FATAL.
Proof.
  unfold known_level. pose proof levels_ordered.
  repeat match goal with
         | |- context [Z.eqb ?a ?b] => destruct (Z.eqb_spec a b); try lia
         end.
  reflexivity.
Qed.

Lemma GetMappedSeverity_fuel_known bld n severity g w :
  known_level severity = Some g ->
  ArrowLog.GetMappedSeverity_fuel bld (S n) severity w = Returned g w.
Proof.
  unfold known_level. cbn [ArrowLog.GetMappedSeverity_fuel].
  repeat match goal with
         | |- context [Z.eqb severity ?b] =>
             destruct (Z.eqb severity b); [intros [= <-]; reflexivity|]
         end.
  discriminate.
Qed.

Lemma GetMappedSeverity_fuel_unknown bld n severity :
  known_level severity = None ->
  ArrowLog.GetMappedSeverity_fuel bld (S n) severity =
    (ArrowLog.ARROW_LOG_with bld
       (ArrowLog.ctor_with bld (ArrowLog.GetMappedSeverity_fuel bld n))
       (this_file bld) 97 ARROW_FATAL
       [VStr "Unsupported logging level: "; VInt severity] ;;
     ret google.GLOG_FATAL).
Proof.
  unfold known_level. cbn [ArrowLog.GetMappedSeverity_fuel].
  repeat match goal with
         | |- context [Z.eqb severity ?b] =>
             destruct (Z.eqb severity b); [discriminate|]
         end.
  reflexivity.
Qed.

(** The constructor of a glog build over any severity mapping. *)
Lemma ctor_with_glog_eq bt src g f l s w :
  ArrowLog.ctor_with (mkBuild true bt src) g f l s w =
    if Z.geb s (severity_threshold_ w) then
      match g s w with
      | Returned m w' =>
          match app_name_ w' with
          | Some app =>
              Returned
                (ArrowLog.mk true
                   (Some (OfLogMessage
                            (google.mkLogMessage f l m (("(" ++ app) ++ "): ")))))
                w'
          | None => Faulted NullCString w'
          end
      | Terminated w' => Terminated w'
      | Faulted e w' => Faulted e w'
      | OutOfFuel => OutOfFuel
      end
    else Returned (ArrowLog.mk false None) w.
Proof.
  unfold ArrowLog.ctor_with. simpl ARROW_USE_GLOG. cbv iota.
  unfold bind at 1, read.
  destruct (Z.geb s (severity_threshold_ w)); [|reflexivity].
  unfold bind at 1. destruct (g s w) as [m w'| | |]; try reflexivity.
  unfold bind. destruct (app_name_ w'); reflexivity.
Qed.

(** [GetMappedSeverity] in a glog build, with its recursion unrolled:
    any fuel from two on gives this result. *)
Lemma GetMappedSeverity_fuel_eq bt src n severity w :
  ArrowLog.GetMappedSeverity_fuel (mkBuild true bt src) (S (S n)) severity w =
    match known_level severity with
    | Some g => Returned g w
    | None =>
        if Z.geb ARROW_FATAL (severity_threshold_ w) then
          match app_name_ w with
          | Some app =>
              Terminated (add_events [unsupported_level_line src app severity] w)
          | None => Faulted NullCString w
          end
        else Returned google.GLOG_FATAL w
    end.
Proof.
  destruct (known_level severity) as [g|] eqn:K.
  - now apply GetMappedSeverity_fuel_known.
  - rewrite (GetMappedSeverity_fuel_unknown _ _ _ K). simpl this_file.
    unfold ArrowLog.ARROW_LOG_with. unfold bind at 1 2.
    rewrite ctor_with_glog_eq.
    destruct (Z.geb ARROW_FATAL (severity_threshold_ w)); [|reflexivity].
    rewrite (GetMappedSeverity_fuel_known _ _ _ _ _ known_level_FATAL).
    destruct (app_name_ w) as [app|]; reflexivity.
Qed.

Lemma GetMappedSeverity_eq bt src severity w :
  ArrowLog.GetMappedSeverity (mkBuild true bt src) severity w =
    match known_level severity with
    | Some g => Returned g w
    | None =>
        if Z.geb ARROW_FATAL (severity_threshold_ w) then
          match app_name_ w with
          | Some app =>
              Terminated (add_events [unsupported_level_line src app severity] w)
          | None => Faulted NullCString w
          end
        else Returned google.GLOG_FATAL w
    end.
Proof. apply (GetMappedSeverity_fuel_eq bt src 0). Qed.

(** Fuel is no restriction: every larger bound computes what
    [GetMappedSeverity] computes, and that is never [OutOfFuel]. *)
Lemma GetMappedSeverity_fuel_enough bt src n severity w :
  ArrowLog.GetMappedSeverity_fuel (mkBuild true bt src) (S (S n)) severity w =
    ArrowLog.GetMappedSeverity (mkBuild true bt src) severity w /\
  ArrowLog.GetMappedSeverity (mkBuild true bt src) severity w <> OutOfFuel.
Proof.
  rewrite GetMappedSeverity_fuel_eq, GetMappedSeverity_eq. split; [reflexivity|].
  destruct (known_level severity); [discriminate|].
  destruct (Z.geb _ _); [|discriminate].
  destruct (app_name_ w); discriminate.
Qed.

Lemma ctor_glog_eq bt src f l s w :
  ArrowLog.ctor (mkBuild true bt src) f l s w =
    if Z.geb s (severity_threshold_ w) then
      match known_level s with
      | Some g =>
          match app_name_ w with
          | Some app =>
              Returned
                (ArrowLog.mk true
                   (Some (OfLogMessage
                            (google.mkLogMessage f l g (("(" ++ app) ++ "): ")))))
                w
          | None => Faulted NullCString w
          end
      | None =>
          if Z.geb ARROW_FATAL (severity_threshold_ w) then
            match app_name_ w with
            | Some app =>
                Terminated (add_events [unsupported_level_line src app s] w)
            | None => Faulted NullCString w
            end
          else
            match app_name_ w with
            | Some app =>
                Returned
                  (ArrowLog.mk true
                     (Some (OfLogMessage
                              (google.mkLogMessage f l google.GLOG_FATAL
                                 (("(" ++ app) ++ "): ")))))
                  w
            | None => Faulted NullCString w
            end
      end
    else Returned (ArrowLog.mk false None) w.
Proof.
  unfold ArrowLog.ctor. rewrite ctor_with_glog_eq, GetMappedSeverity_eq.
  destruct (Z.geb s (severity_threshold_ w)); [|reflexivity].
  destruct (known_level s); [reflexivity|].
  destruct (Z.geb ARROW_FATAL (severity_threshold_ w)); [|reflexivity].
  destruct (app_name_ w); reflexivity.
Qed.
End Facade.

(** ** Strings: [rfind], [substr] and the log-file tag *)

Lemma rfind_None_iff c s :
  rfind c s = None <-> ~ In c (list_ascii_of_string s).
Proof.
  induction s as [|a r IH]; simpl.
  - tauto.
  - destruct (rfind c r) as [p|].
    + split; [discriminate|]. intros N. exfalso. apply N. right.
      destruct (in_dec ascii_dec c (list_ascii_of_string r)) as [I|I]; [exact I|].
      apply IH in I. discriminate.
    + destruct (Ascii.eqb_spec a c) as [->|D].
      * split; [discriminate|]. intros N. exfalso. apply N. now left.
      * split; [|reflexivity]. intros _ [E|I]; [congruence|].
        now apply (proj1 IH).
Qed.

Lemma rfind_last_slash c p n :
  rfind c n = None -> rfind c (p ++ String c n) = Some (String.length p).
Proof.
  intros N. induction p as [|a p IH]; simpl.
  - rewrite N, Ascii.eqb_refl. reflexivity.
  - rewrite IH. reflexivity.
Qed.

Lemma substr_after p c n : substr (String.length p + 1) (p ++ String c n) = Some n.
Proof. induction p as [|a p IH]; simpl; [reflexivity|exact IH]. Qed.

Lemma substr_in_range pos s :
  (pos <= String.length s)%nat -> exists t, substr pos s = Some t.
Proof.
  revert s. induction pos as [|pos IH]; intros s L.
  - exists s. now destruct s.
  - destruct s as [|a r]; simpl in *; [lia|]. apply IH. lia.
Qed.

Lemma length_append (s t : string) :
  String.length (s ++ t) = (String.length s + String.length t)%nat.
Proof. induction s; simpl; congruence. Qed.

(** [app_name_without_path] never throws: the guard keeps [substr] in
    range. *)
Lemma app_name_without_path_total app :
  exists tag, forall w, ArrowLog.app_name_without_path app w = Returned tag w.
Proof.
  unfold ArrowLog.app_name_without_path.
  destruct (Nat.eqb _ 0); [now eexists|].
  destruct (rfind slash app) as [pos|]; [|now eexists].
  destruct (Nat.ltb_spec (pos + 1) (String.length app)) as [L|L]; [|now eexists].
  destruct (substr_in_range (pos + 1) app) as [t E]; [lia|].
  rewrite E. now eexists.
Qed.

Lemma tag_of_empty_name w :
  ArrowLog.app_name_without_path "" w = Returned "DefaultApp" w.
Proof. reflexivity. Qed.

Lemma tag_of_path p n w :
  n <> "" -> ~ In slash (list_ascii_of_string n) ->
  ArrowLog.app_name_without_path (p ++ String slash n) w = Returned n w.
Proof.
  intros NE NS. apply rfind_None_iff in NS.
  unfold ArrowLog.app_name_without_path.
  rewrite (rfind_last_slash _ p _ NS), substr_after, length_append.
  destruct n as [|a n]; [congruence|]. cbn [String.length].
  match goal with |- context [Nat.eqb ?x 0] => destruct (Nat.eqb_spec x 0) as [E|_]; [lia|] end.
  match goal with |- context [Nat.ltb ?x ?y] => destruct (Nat.ltb_spec x y); [reflexivity|lia] end.
Qed.

Lemma tag_of_plain_name app w :
  app <> "" -> ~ In slash (list_ascii_of_string app) ->
  ArrowLog.app_name_without_path app w = Returned app w.
Proof.
  intros NE NS. apply rfind_None_iff in NS.
  unfold ArrowLog.app_name_without_path. rewrite NS.
  destruct app; [congruence|reflexivity].
Qed.

Lemma tag_of_trailing_slash p w :
  ArrowLog.app_name_without_path (p ++ String slash "") w =
    Returned (p ++ String slash "") w.
Proof.
  unfold ArrowLog.app_name_without_path.
  rewrite (rfind_last_slash slash p "" eq_refl), length_append. cbn [String.length].
  match goal with |- context [Nat.eqb ?x 0] => destruct (Nat.eqb_spec x 0) as [E|_]; [lia|] end.
  rewrite Nat.ltb_irrefl. reflexivity.
Qed.

(** ** Startup *)

(** Brings two worlds built with [add_events] to one shape. *)
Ltac same_world :=
  unfold add_events, emit_to;
  cbn [severity_threshold_ app_name_ working_dir_ trace];
  rewrite <- ?app_assoc; cbn [app]; try reflexivity.

Section Startup.
Context `{SeverityLevels}.

Lemma StartArrowLog_direct_eq bt src app T dir cwd w :
  ArrowLog.StartArrowLog (mkBuild false bt src) app T dir cwd w =
    Returned tt (cwd_recorded cwd w).
Proof.
  unfold ArrowLog.StartArrowLog. simpl ARROW_USE_GLOG. cbv iota.
  destruct cwd; reflexivity.
Qed.

Lemma StartArrowLog_glog_eq bt src app T dir cwd w tag :
  (forall w0, ArrowLog.app_name_without_path app w0 = Returned tag w0) ->
  ArrowLog.StartArrowLog (mkBuild true bt src) app T dir cwd w =
    let w1 := threshold_recorded app T w in
    match known_level T with
    | Some g => Returned tt (cwd_recorded cwd (add_events (glog_setup app g dir tag) w1))
    | None =>
        if Z.geb ARROW_FATAL T
        then Terminated (add_events [unsupported_level_line src (c_str app) T] w1)
        else Returned tt (cwd_recorded cwd
               (add_events (glog_setup app google.GLOG_FATAL dir tag) w1))
    end.
Proof.
  intros TAG. unfold ArrowLog.StartArrowLog. simpl ARROW_USE_GLOG. cbv iota.
  unfold bind at 1 2 3 4, set_severity_threshold_, set_app_name_, read.
  cbn [severity_threshold_ app_name_ working_dir_ trace].
  fold (threshold_recorded app T w). unfold bind at 1.
  rewrite GetMappedSeverity_eq.
  assert (AUX : forall g,
    match
      (emit (Glog (google.InitGoogleLogging (c_str app)));;
       emit (Glog (google.SetStderrLogging g));;
       (if negb (String.length dir =? 0)%nat
        then
         let dir_ends_with_slash :=
           match back dir with
           | Some c => if negb (Ascii.eqb c slash) then dir ++ "/" else dir
           | None => dir
           end in
         name <- ArrowLog.app_name_without_path app;;
         emit (Glog (google.SetLogFilenameExtension (c_str name)));;
         emit (Glog (google.SetLogDestination g (c_str dir)))
        else ret tt)) (threshold_recorded app T w)
    with
    | Returned _ w' =>
        match cwd with
        | Some cwd0 =>
            printf ("Current working dir: " ++ cwd0 ++ newline);; set_working_dir_ cwd0
        | None => ret tt
        end w'
    | Terminated w' => Terminated w'
    | Faulted f w' => Faulted f w'
    | OutOfFuel => OutOfFuel
    end = Returned tt (cwd_recorded cwd
            (add_events (glog_setup app g dir tag) (threshold_recorded app T w)))).
  { intros g. unfold glog_setup, cwd_recorded, threshold_recorded.
    destruct (String.length dir =? 0)%nat; simpl negb; cbv iota zeta.
    - run. destruct cwd; same_world.
    - unfold bind at 1 2 3, emit at 1 2. unfold bind at 1. rewrite TAG.
      run. destruct cwd; same_world. }
  cbv zeta.
  destruct (known_level T) as [g|]; [apply AUX|].
  cbn [severity_threshold_ threshold_recorded app_name_].
  destruct (Z.geb ARROW_FATAL T); [reflexivity|apply AUX].
Qed.
End Startup.

(** ** The life of a record of the direct build *)

Section RecordLife.
Context `{SeverityLevels}.

Lemma sink_shl_direct_eq en c v w :
  ArrowLog.sink_shl (direct_record en c) v w =
    if Z.eqb (CerrLog.severity_ c) ARROW_DEBUG then Returned (direct_record en c) w
    else Returned (direct_record en (CerrLog.mk (CerrLog.severity_ c) true))
           (add_events (puts [v]) w).
Proof.
  unfold ArrowLog.sink_shl, direct_record. cbn [ArrowLog.logging_provider_].
  unfold bind. rewrite CerrLog_shl_eq.
  destruct (Z.eqb _ _); reflexivity.
Qed.

Lemma ostream_put_all_cerr_eq vs : forall r w,
  ostream_put_all r std_cerr vs w = Returned r (add_events (puts vs) w).
Proof.
  induction vs as [|v vs IH]; intros r w; simpl.
  - now rewrite add_events_nil.
  - run. rewrite IH, emit_to_add_events, add_events_add_events. reflexivity.
Qed.

Lemma via_Stream_direct_eq en c vs w :
  via_Stream (direct_record en c) vs w =
    Returned (direct_record en (CerrLog.Stream c)) (add_events (puts vs) w).
Proof.
  unfold via_Stream, ArrowLog.Stream, direct_record. cbn [ArrowLog.logging_provider_].
  unfold bind, ret. cbn [fst snd]. apply ostream_put_all_cerr_eq.
Qed.

Lemma puts_are_stderr_writes vs : Forall is_stderr_write (puts vs).
Proof.
  induction vs; simpl; constructor; auto. now eexists.
Qed.

(** Using a direct record never ends the call early, only ever writes
    to [std::cerr], keeps the severity, and leaves the record marked
    as soon as anything was written. *)
Lemma apply_uses_direct us : forall en c w,
  exists c' d,
    apply_uses (direct_record en c) us w =
      Returned (direct_record en c') (add_events d w) /\
    CerrLog.severity_ c' = CerrLog.severity_ c /\
    Forall is_stderr_write d /\
    (CerrLog.has_logged_ c = true \/ d <> [] -> CerrLog.has_logged_ c' = true).
Proof.
  induction us as [|u us IH]; intros en c w.
  - exists c, []. rewrite add_events_nil. repeat split; auto.
    intros [L|N]; [exact L|congruence].
  - cbn [apply_uses]. unfold bind.
    assert (STEP : exists c1 d1,
               apply_use (direct_record en c) u w =
                 Returned (direct_record en c1) (add_events d1 w) /\
               CerrLog.severity_ c1 = CerrLog.severity_ c /\
               Forall is_stderr_write d1 /\
               (CerrLog.has_logged_ c = true \/ d1 <> [] ->
                CerrLog.has_logged_ c1 = true)).
    { destruct u as [v|vs]; cbn [apply_use].
      - rewrite sink_shl_direct_eq.
        destruct (Z.eqb (CerrLog.severity_ c) ARROW_DEBUG).
        + exists c, []. rewrite add_events_nil. repeat split; auto.
          intros [L|N]; [exact L|congruence].
        + eexists _, _. split; [reflexivity|]. repeat split; auto.
          apply puts_are_stderr_writes.
      - rewrite via_Stream_direct_eq.
        eexists _, _. split; [reflexivity|]. repeat split; auto.
        apply puts_are_stderr_writes. }
    destruct STEP as (c1 & d1 & E1 & S1 & F1 & L1). rewrite E1.
    destruct (IH en c1 (add_events d1 w)) as (c2 & d2 & E2 & S2 & F2 & L2).
    exists c2, (d1 ++ d2)%list. rewrite E2, add_events_add_events.
    repeat split.
    + congruence.
    + apply Forall_app; auto.
    + intros [L|N]; apply L2.
      * left. apply L1. now left.
      * destruct d1 as [|e d1]; [right; exact N|left; apply L1; right; discriminate].
Qed.
End RecordLife.

(** ** Records keep their flag *)

Lemma sink_shl_keeps_flag `{SeverityLevels} r v w r' w' :
  ArrowLog.sink_shl r v w = Returned r' w' ->
  ArrowLog.is_enabled_ r' = ArrowLog.is_enabled_ r.
Proof.
  unfold ArrowLog.sink_shl.
  destruct (ArrowLog.logging_provider_ r) as [[c|m]|]; run.
  - destruct (CerrLog.shl c v w); intros [= <- _] || discriminate. reflexivity.
  - intros [= <- _]. reflexivity.
  - discriminate.
Qed.

Lemma Stream_keeps_flag r w r' os w' :
  ArrowLog.Stream r w = Returned (r', os) w' ->
  ArrowLog.is_enabled_ r' = ArrowLog.is_enabled_ r.
Proof.
  unfold ArrowLog.Stream.
  destruct (ArrowLog.logging_provider_ r) as [[c|m]|]; run;
    intros [= <- _ _] || discriminate; reflexivity.
Qed.

Lemma ostream_put_keeps_flag r os v w r' w' :
  ArrowLog.ostream_put r os v w = Returned r' w' ->
  ArrowLog.is_enabled_ r' = ArrowLog.is_enabled_ r.
Proof.
  unfold ArrowLog.ostream_put. destruct os; run.
  - intros [= <- _]. reflexivity.
  - destruct (ArrowLog.logging_provider_ r) as [[c|m]|];
      intros [= <- _] || discriminate; reflexivity.
Qed.

Lemma ctor_flag `{SeverityLevels} bld f l s w r w' :
  ArrowLog.ctor bld f l s w = Returned r w' ->
  ArrowLog.is_enabled_ r = Z.geb s (severity_threshold_ w).
Proof.
  destruct bld as [[|] bt src].
  - rewrite ctor_glog_eq.
    destruct (Z.geb s (severity_threshold_ w)).
    + destruct (known_level s).
      * destruct (app_name_ w); intros [= <- _] || discriminate; reflexivity.
      * destruct (Z.geb ARROW_FATAL (severity_threshold_ w));
          destruct (app_name_ w); intros [= <- _] || discriminate; reflexivity.
    + intros [= <- _]. reflexivity.
  - rewrite ctor_direct_eq.
    destruct (Z.eqb s ARROW_DEBUG); intros [= <- _]; reflexivity.
Qed.

Lemma ctor_direct_flag `{SeverityLevels} bt src f l s w :
  flag_of (ArrowLog.ctor (mkBuild false bt src) f l s w) =
    Some (Z.geb s (severity_threshold_ w)).
Proof.
  rewrite ctor_direct_eq. destruct (Z.eqb s ARROW_DEBUG); reflexivity.
Qed.

(** * The claims *)

Section Claims.
Context `{SeverityLevels}.

(** C1. A record of the direct console sink, on destruction: writes
    exactly one line terminator to standard error when it is marked
    as having logged, and none otherwise; at severity FATAL it then
    dumps the backtrace (where the platform has one) and calls
    [abort], the terminator and the backtrace coming before the abort
    in the trace; at every other severity the destructor returns.
    Whatever a record wrote during its life left it marked, so written
    content always gets its terminator.  No other operation of the
    direct build ends the process: not the constructor, not any use
    of a record, not [IsEnabled], not the startup, shutdown or
    signal-handler calls. *)
Theorem cerr_record_destruction :
  forall (bt : bool) (src : string) (en : bool) (c : CerrLog.t) (w : World),
    let bld := mkBuild false bt src in
    let r := direct_record en c in
    ArrowLog.dtor bld r w =
      (if Z.eqb (CerrLog.severity_ c) ARROW_FATAL
       then Terminated
              (add_events
                 ((if CerrLog.has_logged_ c then [Write STDERR_FILENO newline] else []) ++
                  (if bt then [BacktraceSymbolsFd 1] else []) ++ [Abort]) w)
       else Returned tt
              (add_events
                 (if CerrLog.has_logged_ c then [Write STDERR_FILENO newline] else []) w)) /\
    (forall f l s us,
        exists c' d,
          (r0 <- ArrowLog.ctor bld f l s ;; apply_uses r0 us) w =
            Returned (direct_record (Z.geb s (severity_threshold_ w)) c') (add_events d w) /\
          CerrLog.severity_ c' = s /\
          Forall is_stderr_write d /\
          (d <> [] -> CerrLog.has_logged_ c' = true)) /\
    (forall f l s, terminated (ArrowLog.ctor bld f l s w) = false) /\
    (forall us, terminated (apply_uses r us w) = false) /\
    terminated (ArrowLog.IsEnabled r w) = false /\
    (forall app T dir cwd,
        terminated (ArrowLog.StartArrowLog bld app T dir cwd w) = false) /\
    terminated (ArrowLog.ShutDownArrowLog bld w) = false /\
    terminated (ArrowLog.InstallFailureSignalHandler bld w) = false.
Proof.
  intros bt src en c w bld r. repeat split.
  - unfold r, direct_record, ArrowLog.dtor. cbn [ArrowLog.logging_provider_].
    rewrite CerrLog_dtor_eq. reflexivity.
  - intros f l s us. unfold bind, bld. rewrite ctor_direct_eq.
    destruct (Z.eqb s ARROW_DEBUG).
    + destruct (apply_uses_direct us (Z.geb s (severity_threshold_ w))
                  (CerrLog.mk s false) w) as (c' & d & E & S & F & L).
      exists c', d. unfold direct_record in E. rewrite E.
      repeat split; auto.
    + destruct (apply_uses_direct us (Z.geb s (severity_threshold_ w))
                  (CerrLog.mk s true) (add_events (puts (location f l)) w))
        as (c' & d & E & S & F & L).
      exists c', (puts (location f l) ++ d)%list. unfold direct_record in E.
      rewrite E, add_events_add_events. repeat split; auto.
      apply Forall_app. split; [apply puts_are_stderr_writes|exact F].
  - intros f l s. unfold bld. rewrite ctor_direct_eq.
    destruct (Z.eqb s ARROW_DEBUG); reflexivity.
  - intros us. destruct (apply_uses_direct us en c w) as (c' & d & E & _).
    unfold r. rewrite E. reflexivity.
  - intros app T dir cwd. unfold bld. rewrite StartArrowLog_direct_eq. reflexivity.
Qed.

(** The flag of a FATAL record.  A record constructed at FATAL carries the
    flag [FATAL >= threshold]: it is enabled exactly when the
    threshold is at most FATAL, hence for each of the five levels as
    threshold, and it is disabled for every threshold above FATAL.
    The direct build always returns such a record. *)
Theorem fatal_record_enabled_iff :
  forall (bld : Build) (f : string) (l : Z) (w : World),
    (forall r w',
        ArrowLog.ctor bld f l ARROW_FATAL w = Returned r w' ->
        (ArrowLog.is_enabled_ r = true <-> severity_threshold_ w <= ARROW_FATAL)) /\
    (ARROW_USE_GLOG bld = false ->
     exists r w', ArrowLog.ctor bld f l ARROW_FATAL w = Returned r w') /\
    (In (severity_threshold_ w)
        [ARROW_DEBUG; ARROW_INFO; ARROW_WARNING; ARROW_ERROR; ARROW_FATAL] ->
     severity_threshold_ w <= ARROW_FATAL).
Proof.
  intros bld f l w. split; [|split].
  - intros r w' C. rewrite (ctor_flag _ _ _ _ _ _ _ C). lia.
  - intros D. destruct bld as [g bt src]. simpl in D. subst g.
    rewrite ctor_direct_eq. destruct (Z.eqb _ _); eauto.
  - pose proof levels_ordered. simpl. intuition lia.
Qed.

(** C3. A record constructed at severity [S] while the threshold is
    [T] carries the flag [S >= T]; the direct build always returns
    the record.  [IsEnabled] returns that flag and leaves the world as
    it found it, in whatever world it is asked (so also after the
    threshold has changed).  No operation on a record changes its
    flag. *)
Theorem enabled_flag_is_severity_ge_threshold :
  forall (bld : Build) (f : string) (l S : Z) (w : World) (r : ArrowLog.t) (w' : World),
    ArrowLog.ctor bld f l S w = Returned r w' ->
    ArrowLog.is_enabled_ r = Z.geb S (severity_threshold_ w) /\
    (forall bt src,
        flag_of (ArrowLog.ctor (mkBuild false bt src) f l S w) =
          Some (Z.geb S (severity_threshold_ w))) /\
    (forall w1, ArrowLog.IsEnabled r w1 = Returned (ArrowLog.is_enabled_ r) w1) /\
    (forall v w1 r1 w2,
        ArrowLog.sink_shl r v w1 = Returned r1 w2 ->
        ArrowLog.is_enabled_ r1 = ArrowLog.is_enabled_ r) /\
    (forall w1 r1 os w2,
        ArrowLog.Stream r w1 = Returned (r1, os) w2 ->
        ArrowLog.is_enabled_ r1 = ArrowLog.is_enabled_ r) /\
    (forall os v w1 r1 w2,
        ArrowLog.ostream_put r os v w1 = Returned r1 w2 ->
        ArrowLog.is_enabled_ r1 = ArrowLog.is_enabled_ r).
Proof.
  intros bld f l S w r w' C. repeat split.
  - exact (ctor_flag _ _ _ _ _ _ _ C).
  - intros bt src. apply ctor_direct_flag.
  - intros v w1 r1 w2. apply sink_shl_keeps_flag.
  - intros w1 r1 os w2. apply Stream_keeps_flag.
  - intros os v w1 r1 w2. apply ostream_put_keeps_flag.
Qed.

(** The whole life of a direct record that is neither DEBUG nor FATAL:
    prefix, whatever its uses write, line terminator. *)
Lemma direct_life_eq bt src f l s us w :
  s <> ARROW_DEBUG -> s <> ARROW_FATAL ->
  exists d,
    (r <- ArrowLog.ctor (mkBuild false bt src) f l s ;;
     r' <- apply_uses r us ;;
     ArrowLog.dtor (mkBuild false bt src) r') w =
      Returned tt
        (add_events (puts (location f l) ++ d ++ [Write STDERR_FILENO newline]) w) /\
    apply_uses (direct_record (Z.geb s (severity_threshold_ w)) (CerrLog.mk s true)) us
      (add_events (puts (location f l)) w) =
      Returned (direct_record (Z.geb s (severity_threshold_ w)) (CerrLog.mk s true))
        (add_events d (add_events (puts (location f l)) w)).
Proof.
  intros ND NF. apply Z.eqb_neq in ND. apply Z.eqb_neq in NF.
  unfold bind at 1. rewrite ctor_direct_eq, ND.
  destruct (apply_uses_direct us (Z.geb s (severity_threshold_ w)) (CerrLog.mk s true)
              (add_events (puts (location f l)) w)) as (c' & d & E & S & F & L).
  simpl in S, L. destruct c' as [s' h']. simpl in S, L. subst s'.
  rewrite (L (or_introl eq_refl)) in E.
  exists d. split; [|exact E].
  unfold bind. unfold direct_record in E. rewrite E.
  unfold ArrowLog.dtor. cbn [ArrowLog.logging_provider_].
  rewrite CerrLog_dtor_eq. cbn [CerrLog.severity_]. rewrite NF.
  unfold line_end. cbn [CerrLog.has_logged_].
  rewrite !add_events_add_events, <- ?app_assoc. reflexivity.
Qed.

(** C4, on the code.  In the direct build with the threshold at
    WARNING, a record at INFO is disabled, yet its constructor writes
    the prefix ["file.cc:10: "] to standard error and its destructor
    the line terminator: with nothing appended the record's life
    leaves ["file.cc:10: " ++ newline] on standard error, and whatever
    is done with the record in between, the output begins with that
    prefix.  A record at WARNING with ["hello"] streamed into it, with
    [<<] or through its stream, leaves ["file.cc:10: hello" ++
    newline].  Nor can the threshold be brought to WARNING in this
    build: after [StartArrowLog] with WARNING from the initial state the
    INFO record is enabled and its line is written in full. *)
Theorem disabled_info_record_prints_prefix :
  forall (bt : bool) (src : string) (app : option string) (wd : string),
    let bld := mkBuild false bt src in
    let w := mkWorld ARROW_WARNING app wd [] in
    let life w0 severity us :=
      (r <- ArrowLog.ctor bld "file.cc" 10 severity ;;
       r' <- apply_uses r us ;;
       ArrowLog.dtor bld r') w0 in
    flag_of (ArrowLog.ctor bld "file.cc" 10 ARROW_INFO w) = Some false /\
    option_map stderr_text (world_of (ArrowLog.ctor bld "file.cc" 10 ARROW_INFO w)) =
      Some "file.cc:10: " /\
    option_map stderr_text (world_of (life w ARROW_INFO [])) =
      Some ("file.cc:10: " ++ newline) /\
    (forall us, exists rest,
        option_map stderr_text (world_of (life w ARROW_INFO us)) =
          Some ("file.cc:10: " ++ rest ++ newline)) /\
    life w ARROW_WARNING [Shl (VStr "hello")] =
      Returned tt
        (add_events
           [Write STDERR_FILENO "file.cc"; Write STDERR_FILENO ":";
            Write STDERR_FILENO "10"; Write STDERR_FILENO ": ";
            Write STDERR_FILENO "hello"; Write STDERR_FILENO newline] w) /\
    option_map stderr_text (world_of (life w ARROW_WARNING [ViaStream [VStr "hello"]])) =
      Some ("file.cc:10: hello" ++ newline) /\
    (exists w1,
        ArrowLog.StartArrowLog bld "app" ARROW_WARNING "" None initial_world =
          Returned tt w1 /\
        flag_of (ArrowLog.ctor bld "file.cc" 10 ARROW_INFO w1) = Some true /\
        option_map stderr_text (world_of (life w1 ARROW_INFO [Shl (VStr "hello")])) =
          Some ("file.cc:10: hello" ++ newline)).
Proof.
  intros bt src app wd bld w life.
  pose proof levels_ordered as LO.
  assert (ND : ARROW_INFO <> ARROW_DEBUG) by lia.
  assert (NF : ARROW_INFO <> ARROW_FATAL) by lia.
  assert (WD : ARROW_WARNING <> ARROW_DEBUG) by lia.
  assert (WF : ARROW_WARNING <> ARROW_FATAL) by lia.
  assert (STEP : forall s v w0,
             s <> ARROW_DEBUG -> s <> ARROW_FATAL -> trace w0 = [] ->
             option_map stderr_text (world_of (life w0 s [Shl v])) =
               Some ("file.cc:10: " ++ render v ++ newline) /\
             option_map stderr_text (world_of (life w0 s [ViaStream [v]])) =
               Some ("file.cc:10: " ++ render v ++ newline)).
  { intros s v w0 D F T. split.
    - destruct (direct_life_eq bt src "file.cc" 10 s [Shl v] w0 D F) as (d & E & U).
      cbn [apply_uses apply_use] in U. unfold bind in U.
      rewrite sink_shl_direct_eq in U. cbn [CerrLog.severity_] in U.
      apply Z.eqb_neq in D. rewrite D in U. unfold ret in U.
      injection U as U. unfold add_events in U. cbn [trace] in U.
      try apply app_inv_head in U. subst d.
      unfold life, bld. rewrite E. unfold world_of, option_map, stderr_text, add_events.
      cbn [trace]. rewrite T. simpl. rewrite ?Z.eqb_refl. reflexivity.
    - destruct (direct_life_eq bt src "file.cc" 10 s [ViaStream [v]] w0 D F) as (d & E & U).
      cbn [apply_uses apply_use] in U. unfold bind in U.
      rewrite via_Stream_direct_eq in U. unfold ret in U.
      injection U as U. unfold add_events in U. cbn [trace] in U.
      try apply app_inv_head in U. subst d.
      unfold life, bld. rewrite E. unfold world_of, option_map, stderr_text, add_events.
      cbn [trace]. rewrite T. simpl. rewrite ?Z.eqb_refl. reflexivity. }
  assert (LIFE : forall us, exists rest,
             option_map stderr_text (world_of (life w ARROW_INFO us)) =
               Some ("file.cc:10: " ++ rest ++ newline)).
  { intros us.
    destruct (direct_life_eq bt src "file.cc" 10 ARROW_INFO us w ND NF) as (d & E & _).
    exists (written_to STDERR_FILENO d).
    unfold life, bld. rewrite E. unfold world_of, option_map, stderr_text, add_events, w.
    cbn [trace List.app]. rewrite !written_to_app. reflexivity. }
  repeat split.
  - unfold bld. rewrite ctor_direct_flag. unfold w. cbn [severity_threshold_].
    f_equal. rewrite Z.geb_leb. apply Z.leb_gt. lia.
  - unfold bld. rewrite ctor_direct_eq. apply Z.eqb_neq in ND. rewrite ND. reflexivity.
  - unfold life, bld, bind. rewrite ctor_direct_eq.
    apply Z.eqb_neq in ND. apply Z.eqb_neq in NF. rewrite ND.
    cbn [apply_uses]. unfold ret, ArrowLog.dtor. cbn [ArrowLog.logging_provider_].
    rewrite CerrLog_dtor_eq. cbn [CerrLog.severity_]. rewrite NF. reflexivity.
  - exact LIFE.
  - destruct (direct_life_eq bt src "file.cc" 10 ARROW_WARNING [Shl (VStr "hello")] w WD WF)
      as (d & E & U).
    cbn [apply_uses apply_use] in U. unfold bind in U.
    rewrite sink_shl_direct_eq in U. cbn [CerrLog.severity_] in U.
    apply Z.eqb_neq in WD. rewrite WD in U. unfold ret in U.
    injection U as U. unfold add_events in U. cbn [trace] in U.
    try apply app_inv_head in U. subst d.
    unfold life, bld. rewrite E. reflexivity.
  - apply (proj2 (STEP ARROW_WARNING (VStr "hello") w WD WF eq_refl)).
  - exists initial_world. split; [apply StartArrowLog_direct_eq|]. split.
    + unfold bld. rewrite ctor_direct_flag. unfold initial_world. cbn [severity_threshold_].
      f_equal. rewrite Z.geb_leb. apply Z.leb_le. lia.
    + apply (proj1 (STEP ARROW_INFO (VStr "hello") initial_world ND NF eq_refl)).
Qed.

(** C5, on the code.  In the direct build [StartArrowLog] returns
    without touching the threshold, whatever threshold it is given:
    records constructed afterwards are still gated by the old one.
    Started from the initial state with WARNING, the threshold stays
    INFO.  In a glog build the threshold is the argument from line 115
    on, however the call ends. *)
Theorem start_direct_build_keeps_old_threshold :
  forall (bt : bool) (src app : string) (T : Z) (dir : string)
         (cwd : option string) (w : World),
    (exists w',
        ArrowLog.StartArrowLog (mkBuild false bt src) app T dir cwd w = Returned tt w' /\
        severity_threshold_ w' = severity_threshold_ w /\
        forall f l s,
          flag_of (ArrowLog.ctor (mkBuild false bt src) f l s w') =
            Some (Z.geb s (severity_threshold_ w))) /\
    (exists w',
        ArrowLog.StartArrowLog (mkBuild false bt src) app ARROW_WARNING dir cwd
          initial_world = Returned tt w' /\
        severity_threshold_ w' = ARROW_INFO /\
        severity_threshold_ w' <> ARROW_WARNING) /\
    (forall w',
        world_of (ArrowLog.StartArrowLog (mkBuild true bt src) app T dir cwd w) = Some w' ->
        severity_threshold_ w' = T).
Proof.
  intros bt src app T dir cwd w. repeat split.
  - eexists. split; [apply StartArrowLog_direct_eq|]. split.
    + destruct cwd; reflexivity.
    + intros f l s. rewrite ctor_direct_flag. destruct cwd; reflexivity.
  - eexists. split; [apply StartArrowLog_direct_eq|].
    pose proof levels_ordered.
    destruct cwd; simpl; split; (reflexivity || lia).
  - intros w'. destruct (app_name_without_path_total app) as [tag TAG].
    rewrite (StartArrowLog_glog_eq _ _ _ _ _ _ _ _ TAG). cbv zeta.
    destruct (known_level T); [|destruct (Z.geb ARROW_FATAL T)];
      destruct cwd; intros [= <-]; reflexivity.
Qed.

(** What [operator<<] does for DEBUG.  In the direct build a record
    at DEBUG is constructed like any
    other (its flag is [DEBUG >= threshold], so it is enabled for
    every threshold at or below DEBUG, and it owns a sink), but
    nothing is written for it: not the prefix, not anything streamed
    into it with [<<] afterwards, and no line terminator when it is
    destroyed.  The world after its whole life is the world before. *)
Theorem debug_content_never_printed :
  forall (bt : bool) (src f : string) (l : Z) (vs : list value) (w : World),
    let bld := mkBuild false bt src in
    exists r,
      ArrowLog.ctor bld f l ARROW_DEBUG w = Returned r w /\
      ArrowLog.is_enabled_ r = Z.geb ARROW_DEBUG (severity_threshold_ w) /\
      (severity_threshold_ w <= ARROW_DEBUG -> ArrowLog.is_enabled_ r = true) /\
      ArrowLog.logging_provider_ r = Some (OfCerrLog (CerrLog.mk ARROW_DEBUG false)) /\
      ArrowLog.sink_shl_all r vs w = Returned r w /\
      ArrowLog.dtor bld r w = Returned tt w.
Proof.
  intros bt src f l vs w bld. unfold bld.
  rewrite ctor_direct_eq, Z.eqb_refl. eexists. split; [reflexivity|].
  cbn [ArrowLog.is_enabled_ ArrowLog.logging_provider_]. repeat split.
  - intros L. rewrite Z.geb_leb. apply Z.leb_le. exact L.
  - induction vs as [|v vs IH]; [reflexivity|].
    cbn [ArrowLog.sink_shl_all]. unfold bind.
    fold (direct_record (Z.geb ARROW_DEBUG (severity_threshold_ w))
            (CerrLog.mk ARROW_DEBUG false)) in *.
    rewrite sink_shl_direct_eq. cbn [CerrLog.severity_]. rewrite Z.eqb_refl.
    exact IH.
  - unfold ArrowLog.dtor. cbn [ArrowLog.logging_provider_].
    rewrite CerrLog_dtor_eq. cbn [CerrLog.severity_ CerrLog.has_logged_].
    pose proof levels_ordered.
    destruct (Z.eqb_spec ARROW_DEBUG ARROW_FATAL); [lia|].
    now rewrite add_events_nil.
Qed.

(** The severity mapping on the five levels, in a glog build: DEBUG
    and INFO go to glog's INFO, the other three to their namesakes,
    and nothing is logged. *)
Lemma GetMappedSeverity_five_levels bt src w :
  let G := ArrowLog.GetMappedSeverity (mkBuild true bt src) in
  G ARROW_DEBUG w = Returned google.GLOG_INFO w /\
  G ARROW_INFO w = Returned google.GLOG_INFO w /\
  G ARROW_WARNING w = Returned google.GLOG_WARNING w /\
  G ARROW_ERROR w = Returned google.GLOG_ERROR w /\
  G ARROW_FATAL w = Returned google.GLOG_FATAL w.
Proof.
  pose proof levels_ordered as LO. cbv zeta.
  rewrite !GetMappedSeverity_eq. unfold known_level.
  repeat match goal with
         | |- context [Z.eqb ?a ?b] => destruct (Z.eqb_spec a b); try lia
         end.
  repeat split.
Qed.

(** Any other severity, while the threshold is at most FATAL and the
    application name is set: the line is handed to glog at its fatal
    level and the process ends there; no value is returned. *)
Lemma unsupported_level_aborts bt src severity w name :
  known_level severity = None ->
  severity_threshold_ w <= ARROW_FATAL ->
  app_name_ w = Some name ->
  ArrowLog.GetMappedSeverity (mkBuild true bt src) severity w =
    Terminated (add_events [unsupported_level_line src name severity] w).
Proof.
  intros K L N. rewrite GetMappedSeverity_eq, K, N.
  destruct (Z.geb_spec ARROW_FATAL (severity_threshold_ w)); [reflexivity|lia].
Qed.

(** C7, on the code.  With the threshold above FATAL the record that
    the [default:] branch logs is disabled: for a severity outside the
    five levels [GetMappedSeverity] then logs nothing, the process
    goes on, and glog's fatal level is returned as an ordinary value.
    [StartArrowLog] given such a severity as threshold puts the state
    there itself (line 115) before it maps it (line 118), and so
    returns normally; no line reaches glog. *)
Theorem unsupported_level_above_FATAL_is_returned :
  forall (bt : bool) (src : string) (severity : Z) (w : World),
    known_level severity = None ->
    ARROW_FATAL < severity_threshold_ w ->
    ArrowLog.GetMappedSeverity (mkBuild true bt src) severity w =
      Returned google.GLOG_FATAL w /\
    (forall app T dir cwd,
        ARROW_FATAL < T ->
        exists w',
          ArrowLog.StartArrowLog (mkBuild true bt src) app T dir cwd w = Returned tt w' /\
          severity_threshold_ w' = T /\
          forall f l g text, ~ In (Glog (google.Flush f l g text)) (skipn (length (trace w)) (trace w'))).
Proof.
  intros bt src severity w K A. split.
  - rewrite GetMappedSeverity_eq, K.
    destruct (Z.geb_spec ARROW_FATAL (severity_threshold_ w)); [lia|reflexivity].
  - intros app T dir cwd AT.
    destruct (app_name_without_path_total app) as [tag TAG].
    rewrite (StartArrowLog_glog_eq _ _ _ _ _ _ _ _ TAG). cbv zeta.
    assert (KT : known_level T = None).
    { pose proof levels_ordered. unfold known_level.
      repeat match goal with
             | |- context [Z.eqb ?a ?b] => destruct (Z.eqb_spec a b); try lia
             end.
      reflexivity. }
    rewrite KT. destruct (Z.geb_spec ARROW_FATAL T); [lia|].
    eexists. split; [reflexivity|]. split; [destruct cwd; reflexivity|].
    intros f l g text.
    assert (TR : forall d, skipn (length (trace w)) (trace w ++ d) = d).
    { intros d. rewrite skipn_app, skipn_all, Nat.sub_diag. reflexivity. }
    unfold glog_setup.
    destruct cwd; destruct (String.length dir =? 0)%nat;
      unfold cwd_recorded, add_events, threshold_recorded;
      cbn [trace severity_threshold_ app_name_ working_dir_];
      rewrite <- ?app_assoc, TR; simpl; intuition discriminate.
Qed.

(** C8, as the code has it.  [StartArrowLog] in a glog build, given
    one of the five levels as threshold, returns.  Whenever it
    returns: with an empty directory no file output is configured;
    with a non-empty directory glog is given a log-file tag and a
    destination, and the tag is ["DefaultApp"] for an empty
    application name, the part after the last ['/'] when that part is
    not empty, and the application name itself when it has no ['/']
    or ends with one. *)
Theorem start_glog_file_output :
  forall (bt : bool) (src app : string) (T : Z) (dir : string)
         (cwd : option string) (w : World),
    let start := ArrowLog.StartArrowLog (mkBuild true bt src) app T dir cwd w in
    (known_level T <> None -> exists w', start = Returned tt w') /\
    (forall w',
        start = Returned tt w' ->
        let added := skipn (length (trace w)) (trace w') in
        (dir = "" -> filter is_file_output added = []) /\
        (dir <> "" ->
         exists g tag dest,
           filter is_file_output added =
             [Glog (google.SetLogFilenameExtension (c_str tag));
              Glog (google.SetLogDestination g dest)] /\
           (app = "" -> tag = "DefaultApp") /\
           (forall p n,
               app = p ++ String slash n -> n <> "" ->
               ~ In slash (list_ascii_of_string n) -> tag = n) /\
           (app <> "" -> ~ In slash (list_ascii_of_string app) -> tag = app) /\
           (forall p, app = p ++ String slash "" -> tag = app))).
Proof.
  intros bt src app T dir cwd w start.
  destruct (app_name_without_path_total app) as [tag TAG].
  assert (TAGS :
    (app = "" -> tag = "DefaultApp") /\
    (forall p n,
        app = p ++ String slash n -> n <> "" ->
        ~ In slash (list_ascii_of_string n) -> tag = n) /\
    (app <> "" -> ~ In slash (list_ascii_of_string app) -> tag = app) /\
    (forall p, app = p ++ String slash "" -> tag = app)).
  { repeat split.
    - intros ->. specialize (TAG w). rewrite tag_of_empty_name in TAG. congruence.
    - intros p n -> NE NS. specialize (TAG w).
      rewrite (tag_of_path p n w NE NS) in TAG. congruence.
    - intros NE NS. specialize (TAG w).
      rewrite (tag_of_plain_name app w NE NS) in TAG. congruence.
    - intros p ->. specialize (TAG w). rewrite tag_of_trailing_slash in TAG. congruence. }
  assert (TR : forall d, skipn (length (trace w)) (trace w ++ d) = d).
  { intros d. rewrite skipn_app, skipn_all, Nat.sub_diag. reflexivity. }
  assert (SETUP : forall g w',
    Returned tt (cwd_recorded cwd
      (add_events (glog_setup app g dir tag) (threshold_recorded app T w))) =
      Returned tt w' ->
    let added := skipn (length (trace w)) (trace w') in
    (dir = "" -> filter is_file_output added = []) /\
    (dir <> "" ->
     exists g tag dest,
       filter is_file_output added =
         [Glog (google.SetLogFilenameExtension (c_str tag));
          Glog (google.SetLogDestination g dest)] /\
       (app = "" -> tag = "DefaultApp") /\
       (forall p n,
           app = p ++ String slash n -> n <> "" ->
           ~ In slash (list_ascii_of_string n) -> tag = n) /\
       (app <> "" -> ~ In slash (list_ascii_of_string app) -> tag = app) /\
       (forall p, app = p ++ String slash "" -> tag = app))).
  { intros g w' [= <-]. cbv zeta. split.
    - intros ->. unfold glog_setup. simpl.
      destruct cwd; unfold cwd_recorded, add_events, threshold_recorded;
        cbn [trace severity_threshold_ app_name_ working_dir_];
        rewrite <- ?app_assoc, TR; reflexivity.
    - intros NE. exists g, tag, (c_str dir). split; [|exact TAGS].
      unfold glog_setup. destruct dir as [|a dir]; [congruence|]. cbn [String.length Nat.eqb].
      destruct cwd; unfold cwd_recorded, add_events, threshold_recorded;
        cbn [trace severity_threshold_ app_name_ working_dir_];
        rewrite <- ?app_assoc, TR; reflexivity. }
  split.
  - intros K. unfold start. rewrite (StartArrowLog_glog_eq _ _ _ _ _ _ _ _ TAG). cbv zeta.
    destruct (known_level T); [eauto|congruence].
  - intros w'. unfold start. rewrite (StartArrowLog_glog_eq _ _ _ _ _ _ _ _ TAG). cbv zeta.
    destruct (known_level T) as [g|]; [apply SETUP|].
    destruct (Z.geb ARROW_FATAL T); [discriminate|apply SETUP].
Qed.

Lemma stderr_write_only_to_stderr e :
  is_stderr_write e -> writes_only_to STDERR_FILENO e.
Proof. intros [s ->]. reflexivity. Qed.

(** A direct record from any point of its life to its end: used, then
    destroyed. *)
Lemma direct_record_rest_of_life bt src en c us w0 :
  exists d,
    world_of ((r' <- apply_uses (direct_record en c) us ;;
               ArrowLog.dtor (mkBuild false bt src) r') w0) =
      Some (add_events d w0) /\
    Forall (writes_only_to STDERR_FILENO) d.
Proof.
  destruct (apply_uses_direct us en c w0) as (c' & d & E & S & F & L).
  unfold bind. rewrite E.
  unfold direct_record, ArrowLog.dtor. cbn [ArrowLog.logging_provider_].
  rewrite CerrLog_dtor_eq. unfold line_end, backtrace_dump. cbn [have_execinfo].
  destruct (Z.eqb (CerrLog.severity_ c') ARROW_FATAL);
    cbn [world_of]; rewrite add_events_add_events;
    (eexists; split; [reflexivity|]);
    (apply Forall_app; split;
     [eapply Forall_impl; [apply stderr_write_only_to_stderr|exact F]|]);
    destruct (CerrLog.has_logged_ c'); destruct bt; repeat constructor.
Qed.

(** C9, as the code has it.  Everything a record of the direct build
    writes with [<<] or through its stream during its life (the
    prefix, the streamed content, the line terminator) is written to
    standard error.  The backtrace of a FATAL record goes to
    descriptor 1, standard output.  The startup call, in either build,
    writes to no descriptor but standard output: its one console write
    is the working-directory line that [printf] prints when [getcwd]
    succeeded. *)
Theorem console_writes_by_descriptor :
  forall (bt : bool) (src : string) (w : World),
    (forall f l s us,
        exists d,
          world_of ((r <- ArrowLog.ctor (mkBuild false bt src) f l s ;;
                     r' <- apply_uses r us ;;
                     ArrowLog.dtor (mkBuild false bt src) r') w) =
            Some (add_events d w) /\
          Forall (writes_only_to STDERR_FILENO) d) /\
    (forall en c,
        CerrLog.severity_ c = ARROW_FATAL ->
        exists d,
          ArrowLog.dtor (mkBuild false true src) (direct_record en c) w =
            Terminated (add_events d w) /\
          In (BacktraceSymbolsFd STDOUT_FILENO) d /\
          forall fd, In (BacktraceSymbolsFd fd) d -> fd = STDOUT_FILENO) /\
    (forall glog app T dir cwd w',
        ArrowLog.StartArrowLog (mkBuild glog bt src) app T dir cwd w = Returned tt w' ->
        exists d,
          trace w' = (trace w ++ d)%list /\
          Forall (writes_only_to STDOUT_FILENO) d /\
          (forall c, cwd = Some c ->
                     In (Write STDOUT_FILENO ("Current working dir: " ++ c ++ newline)) d)).
Proof.
  intros bt src w. split; [|split].
  - intros f l s us. unfold bind at 1. rewrite ctor_direct_eq.
    destruct (Z.eqb s ARROW_DEBUG).
    + apply (direct_record_rest_of_life bt src _ (CerrLog.mk s false) us w).
    + destruct (direct_record_rest_of_life bt src (Z.geb s (severity_threshold_ w))
                  (CerrLog.mk s true) us (add_events (puts (location f l)) w))
        as (d & E & F).
      exists (puts (location f l) ++ d)%list. split.
      * unfold direct_record in E. rewrite E, add_events_add_events. reflexivity.
      * apply Forall_app. split; [|exact F].
        eapply Forall_impl; [apply stderr_write_only_to_stderr|apply puts_are_stderr_writes].
  - intros en c FA. unfold direct_record, ArrowLog.dtor.
    cbn [ArrowLog.logging_provider_]. rewrite CerrLog_dtor_eq, FA, Z.eqb_refl.
    eexists. split; [reflexivity|]. unfold line_end, backtrace_dump. cbn [have_execinfo].
    destruct (CerrLog.has_logged_ c); simpl; split; auto;
      intros fd G; repeat (destruct G as [G|G]; try discriminate G; try (now injection G as <-));
      contradiction.
  - intros glog app T dir cwd w' E.
    assert (CW : forall w0 es,
               Forall (writes_only_to STDOUT_FILENO) es ->
               trace w0 = (trace w ++ es)%list ->
               exists d,
                 trace (cwd_recorded cwd w0) = (trace w ++ d)%list /\
                 Forall (writes_only_to STDOUT_FILENO) d /\
                 (forall c, cwd = Some c ->
                    In (Write STDOUT_FILENO ("Current working dir: " ++ c ++ newline)) d)).
    { intros w0 es F T0. destruct cwd as [c|]; cbn [cwd_recorded trace].
      - exists (es ++ [Write STDOUT_FILENO ("Current working dir: " ++ c ++ newline)])%list.
        rewrite T0, app_assoc. split; [reflexivity|]. split.
        + apply Forall_app. split; [exact F|]. repeat constructor.
        + intros c1 [= <-]. apply in_or_app. right. now left.
      - exists es. repeat split; auto. discriminate. }
    assert (GS : forall g tag,
               Forall (writes_only_to STDOUT_FILENO) (glog_setup app g dir tag)).
    { intros g tag. unfold glog_setup.
      destruct (String.length dir =? 0)%nat; repeat constructor. }
    destruct glog.
    + destruct (app_name_without_path_total app) as [tag TAG].
      rewrite (StartArrowLog_glog_eq _ _ _ _ _ _ _ _ TAG) in E. cbv zeta in E.
      destruct (known_level T) as [g|].
      * injection E as <-. eapply CW; [apply (GS g tag)|reflexivity].
      * destruct (Z.geb ARROW_FATAL T); [discriminate|].
        injection E as <-. eapply CW; [apply (GS google.GLOG_FATAL tag)|reflexivity].
    + rewrite StartArrowLog_direct_eq in E. injection E as <-.
      apply (CW w []); [constructor|now rewrite app_nil_r].
Qed.

(** C10. In a glog build a record whose severity is below the
    threshold is constructed with the flag off and a null provider.
    For every record the constructor returns: if its flag is off, its
    provider is null and [Stream] dereferences that null pointer; if
    its flag is on, [Stream] returns glog's stream, in any world. *)
Theorem disabled_glog_record_has_null_provider :
  forall (bt : bool) (src f : string) (l s : Z) (w : World),
    let bld := mkBuild true bt src in
    (s < severity_threshold_ w ->
     ArrowLog.ctor bld f l s w = Returned (ArrowLog.mk false None) w) /\
    (forall r w',
        ArrowLog.ctor bld f l s w = Returned r w' ->
        (ArrowLog.is_enabled_ r = false ->
         ArrowLog.logging_provider_ r = None /\
         forall w1, ArrowLog.Stream r w1 = Faulted NullDereference w1) /\
        (ArrowLog.is_enabled_ r = true ->
         forall w1, ArrowLog.Stream r w1 = Returned (r, LogMessage_stream) w1)).
Proof.
  intros bt src f l s w bld. unfold bld. split.
  - intros L. rewrite ctor_glog_eq.
    destruct (Z.geb_spec s (severity_threshold_ w)); [lia|reflexivity].
  - intros r w'. rewrite ctor_glog_eq.
    destruct (Z.geb s (severity_threshold_ w)).
    + destruct (known_level s); [|destruct (Z.geb ARROW_FATAL (severity_threshold_ w))];
        destruct (app_name_ w); intros [= <- _] || discriminate;
        (split; [discriminate|reflexivity]).
    + intros [= <- _]. split; [|discriminate]. intros _. split; reflexivity.
Qed.
End Claims.

(** * Further properties of the code *)

Lemma string_app_assoc (a b c : string) : (a ++ b) ++ c = a ++ (b ++ c).
Proof. induction a; simpl; congruence. Qed.

Lemma written_to_puts vs : written_to STDERR_FILENO (puts vs) = text_of vs.
Proof.
  induction vs as [|v vs IH]; simpl; [reflexivity|]. now rewrite IH.
Qed.

Lemma text_of_app vs1 vs2 : text_of (vs1 ++ vs2) = text_of vs1 ++ text_of vs2.
Proof.
  induction vs1 as [|v vs1 IH]; simpl; [reflexivity|].
  now rewrite IH, string_app_assoc.
Qed.

Lemma puts_app vs1 vs2 : puts (vs1 ++ vs2) = (puts vs1 ++ puts vs2)%list.
Proof. apply map_app. Qed.

Lemma written_to_puts_stdout vs : written_to STDOUT_FILENO (puts vs) = "".
Proof. induction vs as [|v vs IH]; simpl; [reflexivity|exact IH]. Qed.


Lemma stdout_text_add_events es w :
  stdout_text (add_events es w) = stdout_text w ++ written_to STDOUT_FILENO es.
Proof. unfold stdout_text, add_events. cbn [trace]. apply written_to_app. Qed.

Lemma string_app_nil_r (a : string) : a ++ "" = a.
Proof. induction a; simpl; congruence. Qed.

(** Where [rfind] finds the character, the string splits there and
    the character does not occur after it. *)
Lemma rfind_split c s pos :
  rfind c s = Some pos ->
  exists p t, s = p ++ String c t /\ String.length p = pos /\ rfind c t = None.
Proof.
  revert pos. induction s as [|a r IH]; intros pos; simpl; [discriminate|].
  destruct (rfind c r) as [q|] eqn:R.
  - intros [= <-]. destruct (IH q eq_refl) as (p & t & -> & L & N).
    exists (String a p), t. simpl. now rewrite L.
  - destruct (Ascii.eqb_spec a c) as [->|_]; [|discriminate].
    intros [= <-]. exists "", r. auto.
Qed.

(** The three ways [app_name_without_path] can come out. *)
Lemma app_name_without_path_cases app w :
  (app = "" /\ ArrowLog.app_name_without_path app w = Returned "DefaultApp" w) \/
  (app <> "" /\ ArrowLog.app_name_without_path app w = Returned app w) \/
  (exists p t,
      app = p ++ String slash t /\ t <> "" /\
      ~ In slash (list_ascii_of_string t) /\
      ArrowLog.app_name_without_path app w = Returned t w).
Proof.
  destruct app as [|a r] eqn:A; [left; split; reflexivity|]. rewrite <- A.
  assert (NE : app <> "") by (rewrite A; discriminate).
  destruct (rfind slash app) as [pos|] eqn:R.
  - destruct (rfind_split _ _ _ R) as (p & t & E & L & N).
    destruct t as [|b t].
    + right. left. split; [exact NE|]. rewrite E. apply tag_of_trailing_slash.
    + right. right. exists p, (String b t). split; [exact E|].
      assert (NS : ~ In slash (list_ascii_of_string (String b t)))
        by (now apply rfind_None_iff).
      split; [discriminate|]. split; [exact NS|].
      rewrite E. apply tag_of_path; [discriminate|exact NS].
  - right. left. split; [exact NE|].
    apply tag_of_plain_name; [exact NE|now apply rfind_None_iff].
Qed.

(** X10. The log-file tag.  [StartArrowLog]'s derivation of the tag
    from the application name never throws ([substr] stays in range),
    never yields the empty string, and for a non-empty name yields a
    suffix of it. *)
Theorem log_file_tag_is_nonempty_suffix :
  forall (app : string) (w : World),
    exists tag,
      ArrowLog.app_name_without_path app w = Returned tag w /\
      tag <> "" /\
      (app <> "" -> exists p, app = p ++ tag).
Proof.
  intros app w.
  destruct (app_name_without_path_cases app w)
    as [[-> E]|[[NE E]|(p & t & A & NT & NS & E)]].
  - exists "DefaultApp". split; [exact E|]. split; [discriminate|congruence].
  - exists app. split; [exact E|]. split; [exact NE|]. intros _. now exists "".
  - exists t. split; [exact E|]. split; [exact NT|]. intros _.
    exists (p ++ String slash ""). rewrite A, string_app_assoc. reflexivity.
Qed.

(** X11. The log-file tag is stable: deriving a tag from a tag gives
    the same tag again.  A tag that differs from the application name
    has no ['/'] in it. *)
Theorem log_file_tag_is_stable :
  forall (app tag : string) (w : World),
    ArrowLog.app_name_without_path app w = Returned tag w ->
    ArrowLog.app_name_without_path tag w = Returned tag w /\
    (tag = app \/ ~ In slash (list_ascii_of_string tag)).
Proof.
  intros app tag w T.
  destruct (app_name_without_path_cases app w)
    as [[-> E]|[[NE E]|(p & t & A & NT & NS & E)]];
    rewrite E in T; injection T as <-.
  - split; [reflexivity|]. right. apply rfind_None_iff. reflexivity.
  - split; [exact E|now left].
  - split; [|now right]. now apply tag_of_plain_name.
Qed.

Section Further.
Context `{SeverityLevels}.

(** A direct record that prints (any severity but DEBUG), once marked,
    passes everything on to [std::cerr], in order. *)
Lemma apply_uses_printing us : forall en s w,
  s <> ARROW_DEBUG ->
  apply_uses (direct_record en (CerrLog.mk s true)) us w =
    Returned (direct_record en (CerrLog.mk s true)) (add_events (puts (content_of us)) w).
Proof.
  induction us as [|u us IH]; intros en s w D.
  - simpl. now rewrite add_events_nil.
  - cbn [apply_uses]. unfold bind. destruct u as [v|vs]; cbn [apply_use].
    + rewrite sink_shl_direct_eq. cbn [CerrLog.severity_].
      apply Z.eqb_neq in D. rewrite D. apply Z.eqb_neq in D. cbv beta iota.
      rewrite IH by exact D. rewrite add_events_add_events. reflexivity.
    + rewrite via_Stream_direct_eq. unfold CerrLog.Stream. cbn [CerrLog.severity_]. cbv beta iota.
      rewrite IH by exact D. rewrite add_events_add_events.
      cbn [content_of flat_map]. fold (content_of us). now rewrite puts_app.
Qed.

(** A DEBUG record drops what is streamed into the sink and passes on
    what is written through [Stream]; asking for the stream marks it. *)
Lemma apply_uses_debug us : forall en h w,
  apply_uses (direct_record en (CerrLog.mk ARROW_DEBUG h)) us w =
    Returned (direct_record en (CerrLog.mk ARROW_DEBUG (h || asked_for_stream us)))
      (add_events (puts (streamed_of us)) w).
Proof.
  induction us as [|u us IH]; intros en h w.
  - simpl. now rewrite add_events_nil, orb_false_r.
  - cbn [apply_uses]. unfold bind. destruct u as [v|vs]; cbn [apply_use].
    + rewrite sink_shl_direct_eq. cbn [CerrLog.severity_]. rewrite Z.eqb_refl.
      cbv beta iota. rewrite IH. reflexivity.
    + rewrite via_Stream_direct_eq. unfold CerrLog.Stream. cbn [CerrLog.severity_]. cbv beta iota.
      rewrite IH, add_events_add_events. cbn [streamed_of flat_map asked_for_stream existsb].
      fold (streamed_of us). fold (asked_for_stream us).
      rewrite puts_app, orb_true_r. reflexivity.
Qed.

(** X1. The line of a direct record.  A record of any severity but
    DEBUG, whatever is streamed into it or written through its stream,
    produces exactly these events, in this order: its location, the
    content in the order given and one line terminator, all written to
    standard error, which together read
    ["<file>:<line>: <content>" ++ newline].  At any severity but FATAL
    that is all, and the destructor returns.  At FATAL the backtrace is
    then dumped to descriptor 1 (where the platform has one), [abort]
    is called, and the process ends. *)
Theorem direct_record_writes_one_line :
  forall (bt : bool) (src f : string) (l s : Z) (us : list use) (w : World),
    s <> ARROW_DEBUG ->
    let bld := mkBuild false bt src in
    let life :=
      (r <- ArrowLog.ctor bld f l s ;;
       r' <- apply_uses r us ;;
       ArrowLog.dtor bld r') w in
    let line :=
      (puts (location f l ++ content_of us) ++ [Write STDERR_FILENO newline])%list in
    life =
      (if Z.eqb s ARROW_FATAL
       then Terminated
              (add_events
                 (line ++ (if bt then [BacktraceSymbolsFd STDOUT_FILENO] else []) ++ [Abort])
                 w)
       else Returned tt (add_events line w)) /\
    written_to STDERR_FILENO line =
      (f ++ ":" ++ render (VInt l) ++ ": ") ++ text_of (content_of us) ++ newline.
Proof.
  intros bt src f l s us w D bld life line. split.
  - unfold life, line, bld. unfold bind at 1. rewrite ctor_direct_eq.
    apply Z.eqb_neq in D. rewrite D. apply Z.eqb_neq in D.
    unfold bind. fold (direct_record (Z.geb s (severity_threshold_ w)) (CerrLog.mk s true)).
    rewrite (apply_uses_printing us _ s _ D).
    unfold direct_record, ArrowLog.dtor. cbn [ArrowLog.logging_provider_].
    rewrite CerrLog_dtor_eq. cbn [CerrLog.severity_]. unfold line_end, backtrace_dump.
    cbn [CerrLog.has_logged_ have_execinfo].
    destruct (Z.eqb s ARROW_FATAL);
      rewrite !add_events_add_events, puts_app, <- ?app_assoc; reflexivity.
  - unfold line. rewrite written_to_app, written_to_puts, text_of_app.
    unfold location. cbn [text_of fold_right render written_to].
    simpl. rewrite ?string_app_nil_r, ?string_app_assoc. reflexivity.
Qed.

(** X2. The stream of a DEBUG record is not filtered.  A DEBUG record
    of the direct build writes no location and drops what is streamed
    into its sink, but what is written through the stream that [Stream]
    hands out reaches standard error, in order; a line terminator
    follows exactly when [Stream] was asked for, even if nothing was
    written to it.  The process goes on. *)
Theorem debug_record_stream_unfiltered :
  forall (bt : bool) (src f : string) (l : Z) (us : list use) (w : World),
    let bld := mkBuild false bt src in
    (r <- ArrowLog.ctor bld f l ARROW_DEBUG ;;
     r' <- apply_uses r us ;;
     ArrowLog.dtor bld r') w =
      Returned tt
        (add_events
           (puts (streamed_of us) ++
            (if asked_for_stream us then [Write STDERR_FILENO newline] else [])) w).
Proof.
  intros bt src f l us w bld. unfold bld.
  unfold bind at 1. rewrite ctor_direct_eq, Z.eqb_refl.
  unfold bind. fold (direct_record (Z.geb ARROW_DEBUG (severity_threshold_ w))
                       (CerrLog.mk ARROW_DEBUG false)).
  rewrite apply_uses_debug. cbn [orb].
  unfold direct_record, ArrowLog.dtor. cbn [ArrowLog.logging_provider_].
  rewrite CerrLog_dtor_eq. cbn [CerrLog.severity_]. unfold line_end.
  cbn [CerrLog.has_logged_].
  pose proof levels_ordered.
  destruct (Z.eqb_spec ARROW_DEBUG ARROW_FATAL); [lia|].
  now rewrite add_events_add_events.
Qed.

(** Using an enabled record of a glog build: the content gathers in
    glog's message, in order, and the world is left alone. *)
Lemma apply_uses_glog us : forall m w,
  apply_uses (glog_record m) us w =
    Returned (glog_record (LogMessage.put m (text_of (content_of us)))) w.
Proof.
  induction us as [|u us IH]; intros m w.
  - simpl. unfold LogMessage.put. rewrite string_app_nil_r. now destruct m.
  - cbn [apply_uses]. unfold bind.
    assert (PUTS : forall vs m0 w0,
               ostream_put_all (glog_record m0) LogMessage_stream vs w0 =
                 Returned (glog_record (LogMessage.put m0 (text_of vs))) w0).
    { induction vs as [|v vs IHv]; intros m0 w0.
      - simpl. unfold LogMessage.put. rewrite string_app_nil_r. now destruct m0.
      - cbn [ostream_put_all]. unfold bind, ArrowLog.ostream_put, glog_record.
        cbn [ArrowLog.logging_provider_ ArrowLog.is_enabled_]. unfold ret.
        fold (glog_record (LogMessage.put m0 (render v))). rewrite IHv.
        unfold LogMessage.put. simpl. now rewrite string_app_assoc. }
    destruct u as [v|vs]; cbn [apply_use].
    + unfold ArrowLog.sink_shl, glog_record.
      cbn [ArrowLog.logging_provider_ ArrowLog.is_enabled_]. unfold ret.
      fold (glog_record (LogMessage.put m (render v))). rewrite IH.
      unfold LogMessage.put. simpl. now rewrite string_app_assoc.
    + unfold via_Stream, ArrowLog.Stream, glog_record.
      cbn [ArrowLog.logging_provider_]. unfold bind, ret. cbn [fst snd].
      fold (glog_record m). rewrite PUTS, IH.
      cbn [content_of flat_map]. fold (content_of us). rewrite text_of_app.
      unfold LogMessage.put. simpl. now rewrite string_app_assoc.
Qed.

(** The life of an enabled record of a glog build whose severity maps
    to [g]. *)
Lemma glog_life_eq bt src f l s g app us w :
  severity_threshold_ w <= s ->
  app_name_ w = Some app ->
  ArrowLog.GetMappedSeverity (mkBuild true bt src) s w = Returned g w ->
  (r <- ArrowLog.ctor (mkBuild true bt src) f l s ;;
   r' <- apply_uses r us ;;
   ArrowLog.dtor (mkBuild true bt src) r') w =
    (if google.LogSeverity_eqb g google.GLOG_FATAL then Terminated else Returned tt)
      (add_events
         [Glog (google.Flush f l g ("(" ++ app ++ "): " ++ text_of (content_of us)))] w).
Proof.
  intros EN APP MAP.
  unfold bind at 1. unfold ArrowLog.ctor.
  rewrite ctor_with_glog_eq.
  destruct (Z.geb_spec s (severity_threshold_ w)); [|lia].
  rewrite MAP, APP. unfold bind.
  match goal with
  | |- context [ArrowLog.mk true (Some (OfLogMessage ?m))] =>
      fold (glog_record m)
  end.
  rewrite apply_uses_glog.
  unfold glog_record, ArrowLog.dtor. cbn [ArrowLog.logging_provider_].
  unfold LogMessage.dtor, LogMessage.put, bind, emit.
  cbn [google.file_ google.line_ google.msg_severity_ google.text_].
  rewrite emit_to_add_events.
  replace ((("(" ++ app) ++ "): ") ++ text_of (content_of us))
    with ("(" ++ app ++ "): " ++ text_of (content_of us))
    by (simpl; now rewrite string_app_assoc).
  destruct (google.LogSeverity_eqb g google.GLOG_FATAL); reflexivity.
Qed.

(** X3. The line of a glog record.  In a glog build, when the record
    is enabled, the application name is set and the severity maps to
    glog's level [g], the record's life hands glog exactly one line: at
    the record's file and line, at level [g], with the text
    ["(" ++ app ++ "): "] followed by the content in the order given.
    Nothing else happens, and the process ends there exactly when [g]
    is glog's fatal level. *)
Theorem glog_record_delivers_one_line :
  forall (bt : bool) (src f : string) (l s : Z) (g : google.LogSeverity)
         (app : string) (us : list use) (w : World),
    let bld := mkBuild true bt src in
    let life :=
      (r <- ArrowLog.ctor bld f l s ;;
       r' <- apply_uses r us ;;
       ArrowLog.dtor bld r') w in
    severity_threshold_ w <= s ->
    app_name_ w = Some app ->
    ArrowLog.GetMappedSeverity bld s w = Returned g w ->
    world_of life =
      Some (add_events
              [Glog (google.Flush f l g ("(" ++ app ++ "): " ++ text_of (content_of us)))] w) /\
    terminated life = google.LogSeverity_eqb g google.GLOG_FATAL.
Proof.
  intros bt src f l s g app us w bld life EN APP MAP.
  unfold life, bld. rewrite (glog_life_eq bt src f l s g app us w EN APP MAP).
  destruct (google.LogSeverity_eqb g google.GLOG_FATAL); split; reflexivity.
Qed.

(** X4. A disabled record of a glog build leaves no trace: constructed
    below the threshold and destroyed, it changes nothing at all,
    whatever its severity and whether or not the application name is
    set. *)
Theorem disabled_glog_record_is_silent :
  forall (bt : bool) (src f : string) (l s : Z) (w : World),
    s < severity_threshold_ w ->
    (r <- ArrowLog.ctor (mkBuild true bt src) f l s ;;
     ArrowLog.dtor (mkBuild true bt src) r) w = Returned tt w.
Proof.
  intros bt src f l s w L. unfold bind. rewrite ctor_glog_eq.
  destruct (Z.geb_spec s (severity_threshold_ w)); [lia|reflexivity].
Qed.

(** X5. An enabled record of an unrecognised severity always ends the
    process in a glog build (application name set).  With the threshold
    at most FATAL it ends in the constructor, after the line
    ["Unsupported logging level: <severity>"] of [logging.cc:97]; with
    the threshold above FATAL the record is built at glog's fatal level
    and the process ends when it is destroyed, after its own line. *)
Theorem unrecognised_severity_ends_process :
  forall (bt : bool) (src f : string) (l s : Z) (app : string)
         (us : list use) (w : World),
    let bld := mkBuild true bt src in
    let life :=
      (r <- ArrowLog.ctor bld f l s ;;
       r' <- apply_uses r us ;;
       ArrowLog.dtor bld r') w in
    ~ In s [ARROW_DEBUG; ARROW_INFO; ARROW_WARNING; ARROW_ERROR; ARROW_FATAL] ->
    severity_threshold_ w <= s ->
    app_name_ w = Some app ->
    terminated life = true /\
    (severity_threshold_ w <= ARROW_FATAL ->
     ArrowLog.ctor bld f l s w =
       Terminated
         (add_events
            [Glog (google.Flush src 97 google.GLOG_FATAL
                     ("(" ++ app ++ "): Unsupported logging level: " ++ render (VInt s)))]
            w)) /\
    (ARROW_FATAL < severity_threshold_ w ->
     world_of life =
       Some (add_events
               [Glog (google.Flush f l google.GLOG_FATAL
                        ("(" ++ app ++ "): " ++ text_of (content_of us)))] w)).
Proof.
  intros bt src f l s app us w bld life NI EN APP.
  assert (K : known_level s = None).
  { unfold known_level. simpl in NI.
    repeat match goal with
           | |- context [Z.eqb ?a ?b] =>
               destruct (Z.eqb_spec a b) as [E|_]; [exfalso; symmetry in E; tauto|]
           end.
    reflexivity. }
  assert (C1 : severity_threshold_ w <= ARROW_FATAL ->
               ArrowLog.ctor bld f l s w =
                 Terminated
                   (add_events
                      [Glog (google.Flush src 97 google.GLOG_FATAL
                               ("(" ++ app ++ "): Unsupported logging level: "
                                    ++ render (VInt s)))] w)).
  { intros LE. unfold bld. rewrite ctor_glog_eq, K, APP.
    destruct (Z.geb_spec s (severity_threshold_ w)); [|lia].
    destruct (Z.geb_spec ARROW_FATAL (severity_threshold_ w)); [|lia].
    unfold unsupported_level_line. do 4 f_equal.
    simpl. now rewrite !string_app_assoc. }
  assert (C2 : ARROW_FATAL < severity_threshold_ w ->
               world_of life =
                 Some (add_events
                         [Glog (google.Flush f l google.GLOG_FATAL
                                  ("(" ++ app ++ "): " ++ text_of (content_of us)))] w) /\
               terminated life = true).
  { intros GT. unfold life, bld.
    rewrite (glog_life_eq bt src f l s google.GLOG_FATAL app us w EN APP).
    - split; reflexivity.
    - rewrite GetMappedSeverity_eq, K.
      destruct (Z.geb_spec ARROW_FATAL (severity_threshold_ w)); [lia|reflexivity]. }
  split; [|split; [exact C1|intros GT; apply (C2 GT)]].
  destruct (Z_le_gt_dec (severity_threshold_ w) ARROW_FATAL) as [LE|GT].
  - unfold life, bind. rewrite (C1 LE). reflexivity.
  - apply C2. lia.
Qed.

(** X6. The severity mapping on the five levels, in a glog build: it
    returns without logging anything; two levels get the same glog
    level only if they are equal or are DEBUG and INFO; and only FATAL
    gets glog's fatal level. *)
Theorem severity_mapping_merges_only_debug_and_info :
  forall (bt : bool) (src : string) (s1 s2 : Z) (w : World),
    In s1 [ARROW_DEBUG; ARROW_INFO; ARROW_WARNING; ARROW_ERROR; ARROW_FATAL] ->
    In s2 [ARROW_DEBUG; ARROW_INFO; ARROW_WARNING; ARROW_ERROR; ARROW_FATAL] ->
    exists g1 g2,
      ArrowLog.GetMappedSeverity (mkBuild true bt src) s1 w = Returned g1 w /\
      ArrowLog.GetMappedSeverity (mkBuild true bt src) s2 w = Returned g2 w /\
      (g1 = g2 <->
       s1 = s2 \/ (s1 = ARROW_DEBUG /\ s2 = ARROW_INFO) \/
       (s1 = ARROW_INFO /\ s2 = ARROW_DEBUG)) /\
      (g1 = google.GLOG_FATAL <-> s1 = ARROW_FATAL).
Proof.
  intros bt src s1 s2 w I1 I2.
  pose proof levels_ordered as LO.
  destruct (GetMappedSeverity_five_levels bt src w) as (M1 & M2 & M3 & M4 & M5).
  cbv zeta in *.
  simpl in I1, I2.
  destruct I1 as [<-|[<-|[<-|[<-|[<-|[]]]]]];
    destruct I2 as [<-|[<-|[<-|[<-|[<-|[]]]]]];
    eexists _, _;
    (split; [eassumption|]); (split; [eassumption|]);
    split; split; intros; try discriminate; try lia; try reflexivity; try tauto.
Qed.

(** X7. [StartArrowLog] in a glog build, given a threshold that is none
    of the five levels and not above FATAL, ends the process.  By then
    it has stored the threshold and the application name and handed
    glog the line ["Unsupported logging level: <threshold>"]; glog has
    not been initialised, nothing was printed, and the working
    directory has not been read. *)
Theorem start_with_unrecognised_threshold_ends_process :
  forall (bt : bool) (src app : string) (T : Z) (dir : string)
         (cwd : option string) (w : World),
    ~ In T [ARROW_DEBUG; ARROW_INFO; ARROW_WARNING; ARROW_ERROR; ARROW_FATAL] ->
    T <= ARROW_FATAL ->
    ArrowLog.StartArrowLog (mkBuild true bt src) app T dir cwd w =
      Terminated
        (mkWorld T (Some (c_str app)) (working_dir_ w)
           (trace w ++
            [Glog (google.Flush src 97 google.GLOG_FATAL
                     ("(" ++ c_str app ++ "): Unsupported logging level: "
                          ++ render (VInt T)))])).
Proof.
  intros bt src app T dir cwd w NI LE.
  destruct (app_name_without_path_total app) as [tag TAG].
  rewrite (StartArrowLog_glog_eq _ _ _ _ _ _ _ _ TAG). cbv zeta.
  assert (K : known_level T = None).
  { unfold known_level. simpl in NI.
    repeat match goal with
           | |- context [Z.eqb ?a ?b] =>
               destruct (Z.eqb_spec a b) as [E|_]; [exfalso; symmetry in E; tauto|]
           end.
    reflexivity. }
  rewrite K. destruct (Z.geb_spec ARROW_FATAL T); [|lia].
  unfold add_events, threshold_recorded, unsupported_level_line.
  cbn [severity_threshold_ app_name_ working_dir_ trace].
  do 5 f_equal. simpl. now rewrite !string_app_assoc.
Qed.

(** X8. [StartArrowLog] in a glog build, given one of the five levels,
    returns with the threshold and the application name stored (the
    name as given when it has no NUL in it), and has called glog in
    this order: [InitGoogleLogging] with the name,
    [SetStderrLogging] with the mapped threshold, and, only for a
    non-empty directory, [SetLogFilenameExtension] with the tag and
    [SetLogDestination] with the same mapped threshold and the
    directory as it was given; the working-directory line comes
    last. *)
Theorem start_glog_calls_in_order :
  forall (bt : bool) (src app : string) (T : Z) (dir : string)
         (cwd : option string) (w : World),
    In T [ARROW_DEBUG; ARROW_INFO; ARROW_WARNING; ARROW_ERROR; ARROW_FATAL] ->
    exists g tag w',
      ArrowLog.GetMappedSeverity (mkBuild true bt src) T w = Returned g w /\
      ArrowLog.app_name_without_path app w = Returned tag w /\
      ArrowLog.StartArrowLog (mkBuild true bt src) app T dir cwd w = Returned tt w' /\
      severity_threshold_ w' = T /\
      app_name_ w' = Some (c_str app) /\
      (~ In NUL (list_ascii_of_string app) -> app_name_ w' = Some app) /\
      trace w' =
        (trace w ++
         [Glog (google.InitGoogleLogging (c_str app));
          Glog (google.SetStderrLogging g)] ++
         (if (String.length dir =? 0)%nat then []
          else [Glog (google.SetLogFilenameExtension (c_str tag));
                Glog (google.SetLogDestination g (c_str dir))]) ++
         match cwd with
         | Some c => [Write STDOUT_FILENO ("Current working dir: " ++ c ++ newline)]
         | None => []
         end)%list.
Proof.
  intros bt src app T dir cwd w IN.
  destruct (app_name_without_path_total app) as [tag TAG].
  assert (K : exists g, known_level T = Some g).
  { pose proof levels_ordered as LO. unfold known_level. simpl in IN.
    repeat match goal with
           | |- context [Z.eqb ?a ?b] => destruct (Z.eqb_spec a b); [eauto|]
           end.
    exfalso. intuition congruence. }
  destruct K as [g K].
  assert (CS : forall s, ~ In NUL (list_ascii_of_string s) -> c_str s = s).
  { induction s as [|a r IH]; simpl; [reflexivity|]. intros N.
    destruct (Ascii.eqb_spec a NUL) as [->|_]; [exfalso; apply N; now left|].
    f_equal. apply IH. intros I. apply N. now right. }
  exists g, tag. eexists. split; [rewrite GetMappedSeverity_eq, K; reflexivity|].
  split; [apply TAG|].
  split; [rewrite (StartArrowLog_glog_eq _ _ _ _ _ _ _ _ TAG); cbv zeta; rewrite K;
          reflexivity|].
  unfold glog_setup.
  destruct cwd; cbn [cwd_recorded add_events threshold_recorded
                       severity_threshold_ app_name_ working_dir_ trace];
    (split; [reflexivity|]); (split; [reflexivity|]);
    (split; [intros N; now rewrite (CS app N)|]);
    rewrite <- ?app_assoc, ?app_nil_r; reflexivity.
Qed.

(** X9. The working directory.  Whenever [StartArrowLog] returns, in
    either build: if [getcwd] succeeded, the directory is stored in
    [working_dir_] and the line ["Current working dir: <dir>"] is
    added to standard output; if it failed, [working_dir_] keeps its
    old value and nothing is printed.  Standard error is not written
    to. *)
Theorem start_records_working_directory :
  forall (glog bt : bool) (src app : string) (T : Z) (dir : string)
         (cwd : option string) (w w' : World),
    ArrowLog.StartArrowLog (mkBuild glog bt src) app T dir cwd w = Returned tt w' ->
    working_dir_ w' = match cwd with Some c => c | None => working_dir_ w end /\
    stdout_text w' =
      stdout_text w ++
      match cwd with
      | Some c => "Current working dir: " ++ c ++ newline
      | None => ""
      end /\
    stderr_text w' = stderr_text w.
Proof.
  intros glog bt src app T dir cwd w w' E.
  assert (CW : forall es w0,
             written_to STDOUT_FILENO es = "" -> written_to STDERR_FILENO es = "" ->
             working_dir_ w0 = working_dir_ w ->
             trace w0 = (trace w ++ es)%list ->
             working_dir_ (cwd_recorded cwd w0) =
               match cwd with Some c => c | None => working_dir_ w end /\
             stdout_text (cwd_recorded cwd w0) =
               stdout_text w ++
               match cwd with
               | Some c => "Current working dir: " ++ c ++ newline
               | None => ""
               end /\
             stderr_text (cwd_recorded cwd w0) = stderr_text w).
  { intros es w0 O R D T0. unfold stdout_text, stderr_text.
    destruct cwd as [c|]; cbn [cwd_recorded trace working_dir_];
      rewrite T0, ?written_to_app, O, R; simpl;
      rewrite ?string_app_nil_r; auto. }
  assert (GS : forall g tag,
             written_to STDOUT_FILENO (glog_setup app g dir tag) = "" /\
             written_to STDERR_FILENO (glog_setup app g dir tag) = "").
  { intros g tag. unfold glog_setup.
    destruct (String.length dir =? 0)%nat; split; reflexivity. }
  destruct glog.
  - destruct (app_name_without_path_total app) as [tag TAG].
    rewrite (StartArrowLog_glog_eq _ _ _ _ _ _ _ _ TAG) in E. cbv zeta in E.
    destruct (known_level T) as [g|].
    + injection E as <-.
      apply (CW (glog_setup app g dir tag)); try apply GS; reflexivity.
    + destruct (Z.geb ARROW_FATAL T); [discriminate|].
      injection E as <-.
      apply (CW (glog_setup app google.GLOG_FATAL dir tag)); try apply GS; reflexivity.
  - rewrite StartArrowLog_direct_eq in E. injection E as <-.
    apply (CW []); try reflexivity. now rewrite app_nil_r.
Qed.

(** X12. A glog build needs the application name before it logs.
    While [app_name_] is still null, constructing any enabled record
    streams a null C string (and leaves the world as it was): so does
    every record at INFO or above in the initial state.  Once the name
    is set the constructor never leaves defined behaviour; a returning
    [StartArrowLog] sets it, and neither the shutdown nor the
    signal-handler call resets it. *)
Theorem glog_record_needs_application_name :
  forall (bt : bool) (src f : string) (l s : Z) (w : World),
    let bld := mkBuild true bt src in
    (severity_threshold_ w <= s -> app_name_ w = None ->
     ArrowLog.ctor bld f l s w = Faulted NullCString w) /\
    (ARROW_INFO <= s ->
     ArrowLog.ctor bld f l s initial_world = Faulted NullCString initial_world) /\
    (app_name_ w <> None ->
     forall e w', ArrowLog.ctor bld f l s w <> Faulted e w') /\
    (forall app T dir cwd w',
        ArrowLog.StartArrowLog bld app T dir cwd w = Returned tt w' ->
        app_name_ w' = Some (c_str app)) /\
    (forall w',
        ArrowLog.ShutDownArrowLog bld w = Returned tt w' \/
        ArrowLog.InstallFailureSignalHandler bld w = Returned tt w' ->
        app_name_ w' = app_name_ w).
Proof.
  intros bt src f l s w bld.
  assert (NUL0 : forall w0, severity_threshold_ w0 <= s -> app_name_ w0 = None ->
                            ArrowLog.ctor bld f l s w0 = Faulted NullCString w0).
  { intros w0 EN N. unfold bld. rewrite ctor_glog_eq, N.
    destruct (Z.geb_spec s (severity_threshold_ w0)); [|lia].
    destruct (known_level s); [reflexivity|].
    destruct (Z.geb ARROW_FATAL (severity_threshold_ w0)); reflexivity. }
  split; [apply NUL0|]. split; [|split; [|split]].
  - intros I. apply NUL0; [exact I|reflexivity].
  - intros S e w'. unfold bld. rewrite ctor_glog_eq.
    destruct (app_name_ w) as [app|]; [|congruence].
    destruct (Z.geb s (severity_threshold_ w)); [|discriminate].
    destruct (known_level s); [discriminate|].
    destruct (Z.geb ARROW_FATAL (severity_threshold_ w)); discriminate.
  - intros app T dir cwd w'. unfold bld.
    destruct (app_name_without_path_total app) as [tag TAG].
    rewrite (StartArrowLog_glog_eq _ _ _ _ _ _ _ _ TAG). cbv zeta.
    destruct (known_level T); [|destruct (Z.geb ARROW_FATAL T)];
      destruct cwd; intros [= <-]; reflexivity.
  - intros w' [E|E]; injection E as <-; reflexivity.
Qed.

Lemma stderr_write_is_not_glog e : is_stderr_write e -> not_glog_call e.
Proof. intros [s ->]. exact I. Qed.

(** X13. The direct build never calls into glog.  Nothing a record
    does in its life, from construction to destruction, is a glog call;
    and startup, signal-handler installation and shutdown in a row come
    back having done nothing but print the working-directory line: no
    glog call, threshold and application name untouched. *)
Theorem direct_build_never_calls_glog :
  forall (bt : bool) (src : string) (w : World),
    let bld := mkBuild false bt src in
    (forall f l s us,
        exists d,
          world_of ((r <- ArrowLog.ctor bld f l s ;;
                     r' <- apply_uses r us ;;
                     ArrowLog.dtor bld r') w) = Some (add_events d w) /\
          Forall not_glog_call d) /\
    (forall app T dir cwd,
        exists w',
          (ArrowLog.StartArrowLog bld app T dir cwd ;;
           ArrowLog.InstallFailureSignalHandler bld ;;
           ArrowLog.ShutDownArrowLog bld) w = Returned tt w' /\
          severity_threshold_ w' = severity_threshold_ w /\
          app_name_ w' = app_name_ w /\
          trace w' =
            (trace w ++
             match cwd with
             | Some c => [Write STDOUT_FILENO ("Current working dir: " ++ c ++ newline)]
             | None => []
             end)%list).
Proof.
  intros bt src w bld. split.
  - intros f l s us. unfold bld. unfold bind at 1. rewrite ctor_direct_eq.
    assert (REST : forall en c w0,
               exists d,
                 world_of ((r' <- apply_uses (direct_record en c) us ;;
                            ArrowLog.dtor (mkBuild false bt src) r') w0) =
                   Some (add_events d w0) /\
                 Forall not_glog_call d).
    { intros en c w0.
      destruct (apply_uses_direct us en c w0) as (c' & d & E & S & F & L).
      unfold bind. rewrite E.
      unfold direct_record, ArrowLog.dtor. cbn [ArrowLog.logging_provider_].
      rewrite CerrLog_dtor_eq. unfold line_end, backtrace_dump. cbn [have_execinfo].
      destruct (Z.eqb (CerrLog.severity_ c') ARROW_FATAL);
        cbn [world_of]; rewrite add_events_add_events;
        (eexists; split; [reflexivity|]);
        (apply Forall_app; split;
         [eapply Forall_impl; [apply stderr_write_is_not_glog|exact F]|]);
        destruct (CerrLog.has_logged_ c'); destruct bt; repeat constructor. }
    destruct (Z.eqb s ARROW_DEBUG).
    + apply (REST _ (CerrLog.mk s false) w).
    + destruct (REST (Z.geb s (severity_threshold_ w)) (CerrLog.mk s true)
                  (add_events (puts (location f l)) w)) as (d & E & F).
      exists (puts (location f l) ++ d)%list. split.
      * unfold direct_record in E. rewrite E, add_events_add_events. reflexivity.
      * apply Forall_app. split; [|exact F].
        eapply Forall_impl; [apply stderr_write_is_not_glog|apply puts_are_stderr_writes].
  - intros app T dir cwd. unfold bld, bind. rewrite StartArrowLog_direct_eq.
    eexists. split; [reflexivity|].
    destruct cwd; cbn [cwd_recorded severity_threshold_ app_name_ trace];
      rewrite ?app_nil_r; auto.
Qed.

(** Using a record whose provider is null. *)
Lemma apply_uses_null en us w :
  apply_uses (ArrowLog.mk en None) us w =
    match us with
    | [] => Returned (ArrowLog.mk en None) w
    | _ => Faulted NullDereference w
    end.
Proof. destruct us as [|[v|vs] us]; reflexivity. Qed.

(** X14. A glog build leaves the console and [abort] to glog.  Over
    the whole life of a record, whatever its severity, the threshold
    and the uses made of it, and however that life ends, everything
    this code does is a call into glog, and at most one: it writes to
    no descriptor, dumps no backtrace and never calls [abort] itself.
    Signal-handler installation and shutdown are one glog call each. *)
Theorem glog_build_only_calls_glog :
  forall (bt : bool) (src : string) (w : World),
    let bld := mkBuild true bt src in
    (forall f l s us,
        exists d,
          world_of ((r <- ArrowLog.ctor bld f l s ;;
                     r' <- apply_uses r us ;;
                     ArrowLog.dtor bld r') w) = Some (add_events d w) /\
          Forall is_glog_call d /\
          (length d <= 1)%nat) /\
    ArrowLog.InstallFailureSignalHandler bld w =
      Returned tt (add_events [Glog google.InstallFailureSignalHandler] w) /\
    ArrowLog.ShutDownArrowLog bld w =
      Returned tt (add_events [Glog google.ShutdownGoogleLogging] w).
Proof.
  intros bt src w bld. split; [|split; reflexivity].
  intros f l s us. unfold bld.
  assert (ONE : forall c, Forall is_glog_call [Glog c] /\ (length [Glog c] <= 1)%nat).
  { intros c. split; [repeat constructor; now eexists|simpl; lia]. }
  assert (NONE : Forall is_glog_call [] /\ (@length event [] <= 1)%nat).
  { split; [constructor|simpl; lia]. }
  assert (EN : forall g app,
             exists d,
               world_of ((r' <- apply_uses
                                  (ArrowLog.mk true
                                     (Some (OfLogMessage
                                              (google.mkLogMessage f l g
                                                 (("(" ++ app) ++ "): "))))) us ;;
                          ArrowLog.dtor (mkBuild true bt src) r') w) =
                 Some (add_events d w) /\
               Forall is_glog_call d /\ (length d <= 1)%nat).
  { intros g app. unfold bind.
    match goal with
    | |- context [ArrowLog.mk true (Some (OfLogMessage ?m))] => fold (glog_record m)
    end.
    rewrite apply_uses_glog.
    unfold glog_record, ArrowLog.dtor. cbn [ArrowLog.logging_provider_].
    unfold LogMessage.dtor, bind, emit. rewrite emit_to_add_events.
    eexists. split; [|apply ONE].
    destruct (google.LogSeverity_eqb _ _); reflexivity. }
  unfold bind at 1. rewrite ctor_glog_eq.
  destruct (Z.geb s (severity_threshold_ w)).
  - destruct (known_level s) as [g|].
    + destruct (app_name_ w) as [app|].
      * apply EN.
      * exists []. rewrite add_events_nil. split; [reflexivity|apply NONE].
    + destruct (Z.geb ARROW_FATAL (severity_threshold_ w));
        destruct (app_name_ w) as [app|].
      * eexists. split; [reflexivity|apply ONE].
      * exists []. rewrite add_events_nil. split; [reflexivity|apply NONE].
      * apply EN.
      * exists []. rewrite add_events_nil. split; [reflexivity|apply NONE].
  - exists []. rewrite add_events_nil. split; [|apply NONE].
    unfold bind. rewrite apply_uses_null. destruct us; reflexivity.
Qed.
End Further.

(** * The flag of FATAL and the stream of DEBUG *)

Section Defects.
Context `{SeverityLevels}.

(** C2, on the code.  The flag of a FATAL record is [FATAL >=
    threshold] like any other, and [StartArrowLog] of a glog build
    stores whatever threshold it is given before it looks at it.
    Started with a threshold above FATAL it returns with that threshold
    in place; a record constructed at FATAL afterwards has its flag
    off and no provider, and its life leaves the world as it was:
    nothing is logged and the process goes on. *)
Theorem fatal_record_disabled_after_start_above_FATAL :
  forall (bt : bool) (src app : string) (T : Z) (dir : string)
         (cwd : option string) (f : string) (l : Z) (w : World),
    ARROW_FATAL < T ->
    let bld := mkBuild true bt src in
    exists w',
      ArrowLog.StartArrowLog bld app T dir cwd w = Returned tt w' /\
      severity_threshold_ w' = T /\
      ArrowLog.ctor bld f l ARROW_FATAL w' = Returned (ArrowLog.mk false None) w' /\
      flag_of (ArrowLog.ctor bld f l ARROW_FATAL w') = Some false /\
      (r <- ArrowLog.ctor bld f l ARROW_FATAL ;; ArrowLog.dtor bld r) w' = Returned tt w'.
Proof.
  intros bt src app T dir cwd f l w GT bld. unfold bld.
  destruct (app_name_without_path_total app) as [tag TAG].
  rewrite (StartArrowLog_glog_eq _ _ _ _ _ _ _ _ TAG). cbv zeta.
  assert (K : known_level T = None).
  { pose proof levels_ordered. unfold known_level.
    repeat match goal with
           | |- context [Z.eqb ?a ?b] => destruct (Z.eqb_spec a b); try lia
           end.
    reflexivity. }
  rewrite K. destruct (Z.geb_spec ARROW_FATAL T); [lia|].
  eexists. split; [reflexivity|].
  assert (TH : severity_threshold_
                 (cwd_recorded cwd
                    (add_events (glog_setup app google.GLOG_FATAL dir tag)
                       (threshold_recorded app T w))) = T)
    by (destruct cwd; reflexivity).
  split; [exact TH|].
  assert (C : forall w0, severity_threshold_ w0 = T ->
                         ArrowLog.ctor (mkBuild true bt src) f l ARROW_FATAL w0 =
                           Returned (ArrowLog.mk false None) w0).
  { intros w0 E. rewrite ctor_glog_eq, E.
    destruct (Z.geb_spec ARROW_FATAL T); [lia|reflexivity]. }
  split; [apply C, TH|]. split.
  - rewrite (C _ TH). reflexivity.
  - unfold bind. rewrite (C _ TH). reflexivity.
Qed.

End Defects.

(** * The claims on concrete runs *)

(** From here on the five levels are [sample_levels]. *)
#[local] Existing Instance sample_levels.

(** C1 on a run: a FATAL record that logged gets its line end, the
    backtrace and the abort, in that order; a WARNING record that wrote
    is marked. *)
Lemma cerr_record_destruction_witness :
  ArrowLog.dtor direct_build (direct_record true (CerrLog.mk ARROW_FATAL true)) initial_world =
    Terminated
      (add_events [Write STDERR_FILENO newline; BacktraceSymbolsFd 1; Abort] initial_world) /\
  exists c',
    (r0 <- ArrowLog.ctor direct_build "file.cc" 10 ARROW_WARNING ;;
     apply_uses r0 [Shl (VStr "hello")]) initial_world =
      Returned (direct_record true c')
        (add_events (puts (location "file.cc" 10 ++ [VStr "hello"])) initial_world) /\
    CerrLog.has_logged_ c' = true.
Proof.
  pose proof (cerr_record_destruction true "logging.cc" true
                (CerrLog.mk ARROW_FATAL true) initial_world) as T.
  cbv zeta in T. destruct T as (D & L & _). split; [exact D|].
  destruct (L "file.cc" 10 ARROW_WARNING [Shl (VStr "hello")]) as (c' & d & E & _ & _ & M).
  exists c'.
  assert (R : (r0 <- ArrowLog.ctor direct_build "file.cc" 10 ARROW_WARNING ;;
               apply_uses r0 [Shl (VStr "hello")]) initial_world =
              Returned (direct_record true (CerrLog.mk ARROW_WARNING true))
                (add_events (puts (location "file.cc" 10 ++ [VStr "hello"])) initial_world))
    by (vm_compute; reflexivity).
  unfold direct_build, direct_record in *.
  rewrite R in E. injection E as Ec Ed.
  split; [rewrite <- Ec; exact R|].
  apply M. intros ->. discriminate Ed.
Defined.

(** With the sample levels: a glog build started with a threshold one above
    FATAL comes back from the startup call, and the FATAL record
    constructed next has its flag off. *)
Lemma fatal_record_disabled_above_FATAL :
  exists w,
    ArrowLog.StartArrowLog glog_build "app" (ARROW_FATAL + 1) "" None initial_world =
      Returned tt w /\
    severity_threshold_ w = ARROW_FATAL + 1 /\
    ArrowLog.ctor glog_build "file.cc" 10 ARROW_FATAL w =
      Returned (ArrowLog.mk false None) w.
Proof.
  eexists. split; [vm_compute; reflexivity|]. split; vm_compute; reflexivity.
Qed.

(** At the initial threshold a FATAL record is enabled. *)
Lemma fatal_record_enabled_iff_witness :
  exists r w',
    ArrowLog.ctor direct_build "file.cc" 10 ARROW_FATAL initial_world = Returned r w' /\
    ArrowLog.is_enabled_ r = true.
Proof.
  destruct (fatal_record_enabled_iff direct_build "file.cc" 10 initial_world)
    as (A & B & C).
  destruct (B eq_refl) as (r & w' & E).
  exists r, w'. split; [exact E|].
  apply (A r w' E). apply C. simpl. right. left. reflexivity.
Defined.

(** C3 on a run: WARNING at threshold WARNING. *)
Lemma enabled_flag_is_severity_ge_threshold_witness :
  ArrowLog.is_enabled_ (direct_record true (CerrLog.mk ARROW_WARNING true)) =
    Z.geb ARROW_WARNING ARROW_WARNING /\
  ArrowLog.IsEnabled (direct_record true (CerrLog.mk ARROW_WARNING true)) initial_world =
    Returned true initial_world.
Proof.
  destruct (enabled_flag_is_severity_ge_threshold direct_build "file.cc" 10 ARROW_WARNING
              (mkWorld ARROW_WARNING None "" [])
              (direct_record true (CerrLog.mk ARROW_WARNING true))
              (add_events (puts (location "file.cc" 10)) (mkWorld ARROW_WARNING None "" [])))
    as (F & _ & Q & _).
  - vm_compute. reflexivity.
  - split; [exact F|]. apply Q.
Defined.

(** C5 on a run: a glog build does store the threshold. *)
Lemma start_direct_build_keeps_old_threshold_witness :
  exists w',
    world_of (ArrowLog.StartArrowLog glog_build "app" ARROW_WARNING "" None initial_world) =
      Some w' /\
    severity_threshold_ w' = ARROW_WARNING.
Proof.
  eexists. split.
  - vm_compute. reflexivity.
  - apply (proj2 (proj2 (start_direct_build_keeps_old_threshold true "logging.cc" "app"
                           ARROW_WARNING "" None initial_world))).
    vm_compute. reflexivity.
Defined.

(** An enabled DEBUG record swallows ["hello"] streamed with [<<]. *)
Lemma debug_content_never_printed_witness :
  exists r,
    ArrowLog.ctor direct_build "file.cc" 10 ARROW_DEBUG (mkWorld ARROW_DEBUG None "" []) =
      Returned r (mkWorld ARROW_DEBUG None "" []) /\
    ArrowLog.is_enabled_ r = true /\
    ArrowLog.sink_shl_all r [VStr "hello"] (mkWorld ARROW_DEBUG None "" []) =
      Returned r (mkWorld ARROW_DEBUG None "" []).
Proof.
  destruct (debug_content_never_printed true "logging.cc" "file.cc" 10 [VStr "hello"]
              (mkWorld ARROW_DEBUG None "" [])) as (r & E & _ & G & _ & S & _).
  exists r. split; [exact E|]. split; [|exact S].
  apply G. simpl. lia.
Defined.

(** C7 on a run: severity 7 while the threshold is 4. *)
Lemma unsupported_level_above_FATAL_is_returned_witness :
  ArrowLog.GetMappedSeverity glog_build 7 (mkWorld 4 (Some "app") "" []) =
    Returned google.GLOG_FATAL (mkWorld 4 (Some "app") "" []).
Proof.
  refine (proj1 (unsupported_level_above_FATAL_is_returned true "logging.cc" 7
                   (mkWorld 4 (Some "app") "" []) _ _));
    vm_compute; reflexivity.
Defined.

(** C8 fails as stated: the application name ["bin/"] is used as the
    tag with its path separator still in it, and the directory
    ["/tmp/logs"] reaches glog without a separator at its end. *)
Lemma tag_and_directory_passed_unchanged :
  ArrowLog.StartArrowLog glog_build "bin/" ARROW_INFO "/tmp/logs" None initial_world =
    Returned tt
      (mkWorld ARROW_INFO (Some "bin/") ""
         [Glog (google.InitGoogleLogging "bin/");
          Glog (google.SetStderrLogging google.GLOG_INFO);
          Glog (google.SetLogFilenameExtension "bin/");
          Glog (google.SetLogDestination google.GLOG_INFO "/tmp/logs")]).
Proof. vm_compute. reflexivity. Qed.

(** C8 on a run: ["/usr/bin/myapp"] gives the tag ["myapp"]. *)
Lemma start_glog_file_output_witness :
  exists w' g dest,
    ArrowLog.StartArrowLog glog_build "/usr/bin/myapp" ARROW_INFO "/tmp/logs" None
      initial_world = Returned tt w' /\
    filter is_file_output (trace w') =
      [Glog (google.SetLogFilenameExtension "myapp");
       Glog (google.SetLogDestination g dest)].
Proof.
  destruct (start_glog_file_output true "logging.cc" "/usr/bin/myapp" ARROW_INFO
              "/tmp/logs" None initial_world) as (R & P).
  destruct R as (w' & E); [vm_compute; discriminate|].
  destruct (P w' E) as (_ & Q).
  destruct Q as (g & tag & dest & F & _ & N & _); [discriminate|].
  assert (TG : tag = "myapp").
  { apply (N "/usr/bin" "myapp" eq_refl); [discriminate|].
    simpl. intros G.
    repeat (destruct G as [G|G]; [discriminate G|]). exact G. }
  subst tag. exists w', g, dest. split; [exact E|exact F].
Defined.

(** C9 fails as stated: the startup call of the direct build prints its
    diagnostic on standard output, and the destructor of a FATAL record
    sends the backtrace to descriptor 1. *)
Lemma startup_and_backtrace_use_stdout :
  (exists w',
      ArrowLog.StartArrowLog direct_build "app" ARROW_INFO "" (Some "/home") initial_world =
        Returned tt w' /\
      stdout_text w' = "Current working dir: /home" ++ newline /\
      stderr_text w' = "") /\
  ArrowLog.dtor direct_build (direct_record true (CerrLog.mk ARROW_FATAL true)) initial_world =
    Terminated
      (mkWorld ARROW_INFO None ""
         [Write STDERR_FILENO newline; BacktraceSymbolsFd STDOUT_FILENO; Abort]).
Proof.
  split; [eexists; split; [vm_compute; reflexivity|split; reflexivity]|].
  vm_compute. reflexivity.
Qed.

(** C9 on a run: the startup line of a direct build. *)
Lemma console_writes_by_descriptor_witness :
  exists d,
    [Write STDOUT_FILENO ("Current working dir: /home" ++ newline)] = d /\
    Forall (writes_only_to STDOUT_FILENO) d.
Proof.
  destruct (console_writes_by_descriptor true "logging.cc" initial_world) as (_ & _ & S).
  destruct (S false "app" ARROW_INFO "" (Some "/home")
              (mkWorld ARROW_INFO None "/home"
                 [Write STDOUT_FILENO ("Current working dir: /home" ++ newline)]))
    as (d & E & F & _).
  - vm_compute. reflexivity.
  - exists d. split; [exact E|exact F].
Defined.

(** C10 on a run: INFO under threshold WARNING in a glog build. *)
Lemma disabled_glog_record_has_null_provider_witness :
  ArrowLog.ctor glog_build "file.cc" 10 ARROW_INFO (mkWorld ARROW_WARNING (Some "app") "" []) =
    Returned (ArrowLog.mk false None) (mkWorld ARROW_WARNING (Some "app") "" []) /\
  ArrowLog.Stream (ArrowLog.mk false None) initial_world =
    Faulted NullDereference initial_world.
Proof.
  destruct (disabled_glog_record_has_null_provider true "logging.cc" "file.cc" 10
              ARROW_INFO (mkWorld ARROW_WARNING (Some "app") "" [])) as (D & S).
  assert (L : ARROW_INFO < severity_threshold_ (mkWorld ARROW_WARNING (Some "app") "" []))
    by (simpl; lia).
  split; [exact (D L)|].
  destruct (S _ _ (D L)) as (N & _). apply (N eq_refl).
Defined.

(** * The further properties on concrete runs *)

(** X1 on a run: a WARNING record with two pieces of content. *)
Lemma direct_record_writes_one_line_witness :
  (r <- ArrowLog.ctor direct_build "file.cc" 10 ARROW_WARNING ;;
   r' <- apply_uses r [Shl (VStr "n = "); ViaStream [VInt 5]] ;;
   ArrowLog.dtor direct_build r') initial_world =
    Returned tt
      (mkWorld ARROW_INFO None ""
         [Write STDERR_FILENO "file.cc"; Write STDERR_FILENO ":";
          Write STDERR_FILENO "10"; Write STDERR_FILENO ": ";
          Write STDERR_FILENO "n = "; Write STDERR_FILENO "5";
          Write STDERR_FILENO newline]).
Proof.
  refine (proj1 (direct_record_writes_one_line true "logging.cc" "file.cc" 10
                   ARROW_WARNING [Shl (VStr "n = "); ViaStream [VInt 5]]
                   initial_world _)).
  vm_compute. discriminate.
Defined.

(** X3 on a run: an ERROR record of a started glog build. *)
Lemma glog_record_delivers_one_line_witness :
  world_of
    ((r <- ArrowLog.ctor glog_build "file.cc" 10 ARROW_ERROR ;;
      r' <- apply_uses r [Shl (VStr "disk "); ViaStream [VInt 3]] ;;
      ArrowLog.dtor glog_build r') (mkWorld ARROW_INFO (Some "app") "" [])) =
    Some (mkWorld ARROW_INFO (Some "app") ""
            [Glog (google.Flush "file.cc" 10 google.GLOG_ERROR "(app): disk 3")]).
Proof.
  refine (proj1 (glog_record_delivers_one_line true "logging.cc" "file.cc" 10 ARROW_ERROR
                   google.GLOG_ERROR "app" [Shl (VStr "disk "); ViaStream [VInt 3]]
                   (mkWorld ARROW_INFO (Some "app") "" []) _ _ _)).
  - vm_compute. discriminate.
  - reflexivity.
  - vm_compute. reflexivity.
Defined.

(** X4 on a run: a DEBUG record at the initial threshold. *)
Lemma disabled_glog_record_is_silent_witness :
  (r <- ArrowLog.ctor glog_build "file.cc" 10 ARROW_DEBUG ;;
   ArrowLog.dtor glog_build r) initial_world = Returned tt initial_world.
Proof.
  apply (disabled_glog_record_is_silent true "logging.cc" "file.cc" 10 ARROW_DEBUG
           initial_world).
  vm_compute. reflexivity.
Defined.

(** X5 on a run: severity 7 in a started glog build. *)
Lemma unrecognised_severity_ends_process_witness :
  terminated
    ((r <- ArrowLog.ctor glog_build "file.cc" 10 7 ;;
      r' <- apply_uses r [] ;;
      ArrowLog.dtor glog_build r') (mkWorld ARROW_INFO (Some "app") "" [])) = true.
Proof.
  refine (proj1 (unrecognised_severity_ends_process true "logging.cc" "file.cc" 10 7
                   "app" [] (mkWorld ARROW_INFO (Some "app") "" []) _ _ _)).
  - simpl. intuition discriminate.
  - vm_compute. discriminate.
  - reflexivity.
Defined.

(** X6 on a run: DEBUG and INFO get the same glog level. *)
Lemma severity_mapping_merges_only_debug_and_info_witness :
  exists g,
    ArrowLog.GetMappedSeverity glog_build ARROW_DEBUG initial_world =
      Returned g initial_world /\
    ArrowLog.GetMappedSeverity glog_build ARROW_INFO initial_world =
      Returned g initial_world.
Proof.
  destruct (severity_mapping_merges_only_debug_and_info true "logging.cc"
              ARROW_DEBUG ARROW_INFO initial_world)
    as (g1 & g2 & M1 & M2 & S & _).
  - simpl. auto.
  - simpl. auto.
  - assert (E : g1 = g2) by (apply S; right; left; split; reflexivity).
    subst g2. exists g1. split; [exact M1|exact M2].
Defined.

(** X7 on a run: the threshold -5. *)
Lemma start_with_unrecognised_threshold_ends_process_witness :
  ArrowLog.StartArrowLog glog_build "app" (-5) "/tmp/logs" (Some "/home") initial_world =
    Terminated
      (mkWorld (-5) (Some "app") ""
         [Glog (google.Flush "logging.cc" 97 google.GLOG_FATAL
                  "(app): Unsupported logging level: -5")]).
Proof.
  refine (start_with_unrecognised_threshold_ends_process true "logging.cc" "app" (-5)
            "/tmp/logs" (Some "/home") initial_world _ _).
  - simpl. intuition discriminate.
  - vm_compute. discriminate.
Defined.

(** X8 on a run: started with WARNING and a directory. *)
Lemma start_glog_calls_in_order_witness :
  exists w',
    ArrowLog.StartArrowLog glog_build "/usr/bin/myapp" ARROW_WARNING "/tmp/logs" None
      initial_world = Returned tt w' /\
    severity_threshold_ w' = ARROW_WARNING /\
    app_name_ w' = Some "/usr/bin/myapp".
Proof.
  destruct (start_glog_calls_in_order true "logging.cc" "/usr/bin/myapp" ARROW_WARNING
              "/tmp/logs" None initial_world)
    as (g & tag & w' & _ & _ & S & T & _ & N & _).
  - simpl. auto.
  - exists w'. split; [exact S|]. split; [exact T|]. apply N.
    simpl. intros G.
    repeat (destruct G as [G|G]; [discriminate G|]). exact G.
Defined.

(** X9 on a run: a direct build started in ["/home"]. *)
Lemma start_records_working_directory_witness :
  let w' := mkWorld ARROW_INFO None "/home"
              [Write STDOUT_FILENO ("Current working dir: /home" ++ newline)] in
  working_dir_ w' = "/home" /\
  stdout_text w' = "" ++ "Current working dir: /home" ++ newline /\
  stderr_text w' = "".
Proof.
  apply (start_records_working_directory false true "logging.cc" "app" ARROW_INFO ""
           (Some "/home") initial_world).
  vm_compute. reflexivity.
Defined.

(** X10 on a run: the tag of ["/usr/bin/myapp"]. *)
Lemma log_file_tag_is_nonempty_suffix_witness :
  exists tag p,
    ArrowLog.app_name_without_path "/usr/bin/myapp" initial_world =
      Returned tag initial_world /\
    "/usr/bin/myapp" = p ++ tag.
Proof.
  destruct (log_file_tag_is_nonempty_suffix "/usr/bin/myapp" initial_world)
    as (tag & E & _ & S).
  destruct S as (p & P); [discriminate|].
  exists tag, p. split; [exact E|exact P].
Defined.

(** X11 on a run: ["myapp"] is its own tag. *)
Lemma log_file_tag_is_stable_witness :
  ArrowLog.app_name_without_path "myapp" initial_world = Returned "myapp" initial_world.
Proof.
  apply (proj1 (log_file_tag_is_stable "/usr/bin/myapp" "myapp" initial_world eq_refl)).
Defined.

(** X12 on a run: logging at INFO before the startup call, and after. *)
Lemma glog_record_needs_application_name_witness :
  ArrowLog.ctor glog_build "file.cc" 10 ARROW_INFO initial_world =
    Faulted NullCString initial_world /\
  ArrowLog.ctor glog_build "file.cc" 10 ARROW_INFO (mkWorld ARROW_INFO (Some "app") "" []) <>
    Faulted NullCString (mkWorld ARROW_INFO (Some "app") "" []).
Proof.
  split.
  - refine (proj1 (proj2 (glog_record_needs_application_name true "logging.cc" "file.cc"
                            10 ARROW_INFO initial_world)) _).
    vm_compute. discriminate.
  - refine (proj1 (proj2 (proj2 (glog_record_needs_application_name true "logging.cc"
                                   "file.cc" 10 ARROW_INFO
                                   (mkWorld ARROW_INFO (Some "app") "" []))))
              _ NullCString _).
    discriminate.
Defined.

(** C2 on a run: started with a threshold one above FATAL. *)
Lemma fatal_record_disabled_after_start_above_FATAL_witness :
  exists w',
    ArrowLog.StartArrowLog glog_build "app" (ARROW_FATAL + 1) "" None initial_world =
      Returned tt w' /\
    flag_of (ArrowLog.ctor glog_build "file.cc" 10 ARROW_FATAL w') = Some false.
Proof.
  destruct (fatal_record_disabled_after_start_above_FATAL true "logging.cc" "app"
              (ARROW_FATAL + 1) "" None "file.cc" 10 initial_world)
    as (w' & S & _ & _ & F & _).
  - vm_compute. reflexivity.
  - exists w'. split; [exact S|exact F].
Defined.

